(** * Outbound WebSocket RPC transport (node-shellies-ng)

    A shallow embedding of [src/dist/rpc/outbound-websocket.js]: the
    [OutboundWebSocketServer] that accepts sockets opened by Shelly devices and
    the [OutboundWebSocketRpcHandler] that owns one socket per device.

    JavaScript objects that are compared by identity (sockets, handlers,
    promises) live in stores and are named by their index; every method is a
    computation over the store that returns, throws, or gets stuck on a
    reference that names nothing. *)

From Stdlib Require Import ZArith String List.
From stdpp Require Import base option list gmap strings.

Set Warnings "-register-all".

Local Open Scope string_scope.
Local Open Scope Z_scope.
Local Open Scope list_scope.

(** ** JSON values *)

(** What [JSON.parse] yields.  Numbers are restricted to the integers, which is
    what correlation ids and close codes are on this wire. *)
Inductive json : Type :=
  | JNull
  | JBool (b : bool)
  | JNum (n : Z)
  | JStr (s : string)
  | JArr (items : list json)
  | JObj (fields : list (string * json)).

(** A received frame, by the outcome of [JSON.parse(data.toString())]. *)
Inductive Frame : Type :=
  | Garbled (raw : string)
  | Parsed (d : json).

Fixpoint assoc_get (k : string) (fields : list (string * json)) : option json :=
  match fields with
  | [] => None
  | (k', v) :: rest => if String.eqb k k' then Some v else assoc_get k rest
  end.

(** Assignment to a property: an existing key keeps its position. *)
Fixpoint assoc_set (k : string) (v : json) (fields : list (string * json))
  : list (string * json) :=
  match fields with
  | [] => [(k, v)]
  | (k', v') :: rest =>
      if String.eqb k k' then (k', v) :: rest else (k', v') :: assoc_set k v rest
  end.

(** [{ ...target, ...source }]: own properties of [source] are assigned in order. *)
Definition spread (target source : list (string * json)) : list (string * json) :=
  fold_left (fun acc kv => assoc_set (fst kv) (snd kv) acc) source target.

(** [d.k] for a non-null [d]; [None] is [undefined].  Only the keys [id],
    [method], [params] and [src] are ever read, and none of them is a property
    of a boolean, number, string or array. *)
Definition get_prop (d : json) (k : string) : option json :=
  match d with
  | JObj fields => assoc_get k fields
  | _ => None
  end.

(** JavaScript truthiness of a property value. *)
Definition truthy (v : option json) : bool :=
  match v with
  | None => false
  | Some JNull => false
  | Some (JBool b) => b
  | Some (JNum n) => negb (n =? 0)
  | Some (JStr s) => negb (String.eqb s "")
  | Some (JArr _) => true
  | Some (JObj _) => true
  end.

(** [v === lit] for a string literal. *)
Definition is_str (v : option json) (lit : string) : bool :=
  match v with
  | Some (JStr s) => String.eqb s lit
  | _ => false
  end.

(** ** Errors *)

Inductive JsError : Type :=
  | ESyntax                                (* thrown by JSON.parse *)
  | ETypeNull                              (* property read on null *)
  | ESourceMissing (src : option json)     (* 'Message source missing or invalid: ' + d.src *)
  | EClosedUnexpectedly (code : Z)         (* `Incoming connection closed unexpectedly (code: ${code})` *)
  | EIncoming (message : string)           (* 'Error in incoming connection: ' + error.message *)
  | ERpc (error : json)                    (* the error member of a response *)
  | EMsg (message : string).               (* new Error(message) *)

(** ** Sockets *)

(** [WebSocket.CONNECTING], [OPEN], [CLOSING], [CLOSED] of the ws package. *)
Inductive ReadyState : Type := CONNECTING | OPEN | CLOSING | CLOSED.

Definition readyState_code (r : ReadyState) : Z :=
  match r with CONNECTING => 0 | OPEN => 1 | CLOSING => 2 | CLOSED => 3 end.

#[global] Instance ReadyState_eq_dec : EqDecision ReadyState.
Proof. solve_decision. Defined.

Definition is_OPEN (r : ReadyState) : bool :=
  match r with OPEN => true | _ => false end.

Inductive SockEvent : Type := EvOpen | EvClose | EvMessage | EvError.

#[global] Instance SockEvent_eq_dec : EqDecision SockEvent.
Proof. solve_decision. Defined.

Inductive EventArg : Type :=
  | ArgNone
  | ArgClose (code : Z) (reason : string)
  | ArgMessage (data : Frame)
  | ArgError (message : string).

(** The functions that get registered on a socket.  A handler's four bound
    methods are named by the handler; the three closures of one
    [handleConnection] call by the number of that call; [resolveAwait] is the
    [resolve] of the promise made in [awaitDisconnect]. *)
Inductive Listener : Type :=
  | openHandler (h : nat)
  | closeHandler (h : nat)
  | messageHandler (h : nat)
  | errorHandler (h : nat)
  | srvMessageHandler (conn : nat) (socket : nat)
  | srvCloseHandler (conn : nat) (socket : nat)
  | srvErrorHandler (conn : nat) (socket : nat)
  | resolveAwait (p : nat).

#[global] Instance Listener_eq_dec : EqDecision Listener.
Proof. solve_decision. Defined.

Record Registration : Type := mkReg {
  reg_event : SockEvent;
  reg_fn : Listener;
  reg_once : bool
}.

Record Socket : Type := mkSocket {
  readyState : ReadyState;
  listeners : list Registration;
  (* the values whose JSON.stringify text was passed to send() *)
  sent : list json;
  (* the (code, reason) of every close() call *)
  closeCalls : list (Z * string)
}.

Definition reg_matches (ev : SockEvent) (fn : Listener) (r : Registration) : bool :=
  bool_decide (reg_event r = ev) && bool_decide (reg_fn r = fn).

Fixpoint remove_first (p : Registration -> bool) (l : list Registration)
  : list Registration :=
  match l with
  | [] => []
  | r :: rest => if p r then rest else r :: remove_first p rest
  end.

(** Node's [removeListener] takes out the most recently added match. *)
Definition remove_last (p : Registration -> bool) (l : list Registration)
  : list Registration :=
  rev (remove_first p (rev l)).

Definition has_listener (ev : SockEvent) (fn : Listener) (s : Socket) : bool :=
  existsb (reg_matches ev fn) (listeners s).

(** ** Handlers, the correlation client and the store *)

Inductive HandlerEvent : Type :=
  | Connect
  | Disconnect (code : Z) (reason : string)   (* third argument is always null *)
  | Request (method : string) (params : option json)
  | StatusUpdate (params : option json)
  | Event (params : option json)
  | Error (message : string).

Inductive ServerEvent : Type :=
  | SListening
  | SClose
  | SConnection (socket : nat)
  | SDiscover (deviceId protocol : string)
  | SError (e : JsError).

Record Options : Type := mkOptions {
  clientId : string;
  requestTimeout : Z
}.

Inductive FutureState : Type :=
  | FPending
  | FResolved (v : option json)
  | FRejected (e : JsError).

Record PendingRequest : Type := mkPending {
  correlationId : Z;
  resultFuture : nat;
  expiryTimer : Z        (* delay of the armed timer, in milliseconds *)
}.

Record Client : Type := mkClient {
  nextId : Z;
  pending : list PendingRequest
}.

Record Handler : Type := mkHandler {
  _socket : option nat;
  h_options : Options;
  client : Client;
  emitted : list HandlerEvent
}.

Record World : Type := mkWorld {
  sockets : list Socket;
  handlers : list Handler;
  futures : list FutureState;
  rpcHandlers : gmap string nat;
  options : Options;
  connections : nat;
  serverEmitted : list ServerEvent
}.

Definition set_sockets (f : list Socket -> list Socket) (w : World) : World :=
  mkWorld (f (sockets w)) (handlers w) (futures w) (rpcHandlers w) (options w)
          (connections w) (serverEmitted w).
Definition set_handlers (f : list Handler -> list Handler) (w : World) : World :=
  mkWorld (sockets w) (f (handlers w)) (futures w) (rpcHandlers w) (options w)
          (connections w) (serverEmitted w).
Definition set_futures (f : list FutureState -> list FutureState) (w : World) : World :=
  mkWorld (sockets w) (handlers w) (f (futures w)) (rpcHandlers w) (options w)
          (connections w) (serverEmitted w).
Definition set_rpcHandlers (f : gmap string nat -> gmap string nat) (w : World) : World :=
  mkWorld (sockets w) (handlers w) (futures w) (f (rpcHandlers w)) (options w)
          (connections w) (serverEmitted w).
Definition set_connections (f : nat -> nat) (w : World) : World :=
  mkWorld (sockets w) (handlers w) (futures w) (rpcHandlers w) (options w)
          (f (connections w)) (serverEmitted w).
Definition set_serverEmitted (f : list ServerEvent -> list ServerEvent) (w : World) : World :=
  mkWorld (sockets w) (handlers w) (futures w) (rpcHandlers w) (options w)
          (connections w) (f (serverEmitted w)).

(** ** Computations over the store *)

Inductive Res (A : Type) : Type :=
  | Ok (a : A) (w : World)
  | Exn (e : JsError) (w : World)
  | Stuck.
Arguments Ok {A} a w.
Arguments Exn {A} e w.
Arguments Stuck {A}.

Definition M (A : Type) : Type := World -> Res A.

Definition ret {A} (a : A) : M A := fun w => Ok a w.
Definition throw {A} (e : JsError) : M A := fun w => Exn e w.
Definition stuck {A} : M A := fun _ => Stuck.
Definition bind {A B} (m : M A) (k : A -> M B) : M B :=
  fun w => match m w with
           | Ok a w' => k a w'
           | Exn e w' => Exn e w'
           | Stuck => Stuck
           end.
(** [try { m } catch (e) { handler e }] *)
Definition try_catch {A} (m : M A) (handler : JsError -> M A) : M A :=
  fun w => match m w with
           | Ok a w' => Ok a w'
           | Exn e w' => handler e w'
           | Stuck => Stuck
           end.

Declare Scope js_scope.
Delimit Scope js_scope with js.
Notation "x <- m ;; k" := (bind m (fun x => k))
  (at level 100, m at next level, right associativity) : js_scope.
Notation "m ;;; k" := (bind m (fun _ => k))
  (at level 100, right associativity) : js_scope.
Local Open Scope js_scope.

Definition get_handler (h : nat) : M Handler :=
  fun w => match handlers w !! h with Some hd => Ok hd w | None => Stuck end.
Definition put_handler (h : nat) (hd : Handler) : M unit :=
  fun w => Ok tt (set_handlers (fun l => <[h := hd]> l) w).
Definition get_socket (s : nat) : M Socket :=
  fun w => match sockets w !! s with Some sk => Ok sk w | None => Stuck end.
Definition put_socket (s : nat) (sk : Socket) : M unit :=
  fun w => Ok tt (set_sockets (fun l => <[s := sk]> l) w).
Definition modify_socket (s : nat) (f : Socket -> Socket) : M unit :=
  sk <- get_socket s ;; put_socket s (f sk).
Definition modify_handler (h : nat) (f : Handler -> Handler) : M unit :=
  hd <- get_handler h ;; put_handler h (f hd).

(** *** The event emitter of a socket (Node's EventEmitter) *)

Definition with_listeners (f : list Registration -> list Registration) (sk : Socket)
  : Socket :=
  mkSocket (readyState sk) (f (listeners sk)) (sent sk) (closeCalls sk).

Definition sock_on (s : nat) (ev : SockEvent) (fn : Listener) : M unit :=
  modify_socket s (with_listeners (fun l => l ++ [mkReg ev fn false])).
Definition sock_once (s : nat) (ev : SockEvent) (fn : Listener) : M unit :=
  modify_socket s (with_listeners (fun l => l ++ [mkReg ev fn true])).
Definition sock_off (s : nat) (ev : SockEvent) (fn : Listener) : M unit :=
  modify_socket s (with_listeners (remove_last (reg_matches ev fn))).

(** *** The ws package, as far as the handler drives it *)

(** [socket.close(code, reason)] starts the closing handshake: an open or
    connecting socket becomes [CLOSING]; otherwise the state stays. *)
Definition ws_close (s : nat) (code : Z) (reason : string) : M unit :=
  modify_socket s (fun sk =>
    mkSocket (match readyState sk with
              | OPEN | CONNECTING => CLOSING
              | r => r
              end)
             (listeners sk) (sent sk) (closeCalls sk ++ [(code, reason)])).

(** [socket.send(JSON.stringify(data), cb)]: the text is handed to the socket;
    [ack] is the error the callback is later called with, if any. *)
Definition ws_send (s : nat) (data : json) (ack : option JsError) : M unit :=
  modify_socket s (fun sk =>
    mkSocket (readyState sk) (listeners sk) (sent sk ++ [data]) (closeCalls sk)) ;;;
  match ack with
  | None => ret tt
  | Some e => throw e
  end.

(** *** Promises *)

Definition new_future : M nat :=
  fun w => Ok (length (futures w)) (set_futures (fun l => l ++ [FPending]) w).
(** Settling is once only. *)
Definition settle (p : nat) (st : FutureState) : M unit :=
  fun w => match futures w !! p with
           | Some FPending => Ok tt (set_futures (fun l => <[p := st]> l) w)
           | Some _ => Ok tt w
           | None => Stuck
           end.

(** ** OutboundWebSocketRpcHandler *)

Definition with_emitted (f : list HandlerEvent -> list HandlerEvent) (hd : Handler)
  : Handler :=
  mkHandler (_socket hd) (h_options hd) (client hd) (f (emitted hd)).
Definition with_socket (socket : option nat) (hd : Handler) : Handler :=
  mkHandler socket (h_options hd) (client hd) (emitted hd).
Definition with_client (f : Client -> Client) (hd : Handler) : Handler :=
  mkHandler (_socket hd) (h_options hd) (f (client hd)) (emitted hd).

(** [this.emit(...)] of a handler: the event reaches the handler's subscribers. *)
Definition emit (h : nat) (e : HandlerEvent) : M unit :=
  modify_handler h (with_emitted (fun l => l ++ [e])).

(** [socket.readyState] of a socket that may be [null]. *)
Definition readyState_of (socket : option nat) : M (option ReadyState) :=
  match socket with
  | None => ret None
  | Some s => sk <- get_socket s ;; ret (Some (readyState sk))
  end.

Definition setupSocket (h : nat) : M unit :=
  hd <- get_handler h ;;
  match _socket hd with
  | None => ret tt
  | Some s =>
      sock_on s EvOpen (openHandler h) ;;;
      sock_on s EvClose (closeHandler h) ;;;
      sock_on s EvMessage (messageHandler h) ;;;
      sock_on s EvError (errorHandler h)
  end.

(** The event the [socket] setter emits, from the [readyState] of the new and
    of the old socket ([None] for [null]). *)
Definition swap_event (socket oldSocket : option ReadyState) : option HandlerEvent :=
  if bool_decide (socket = None) || bool_decide (oldSocket = None)
     || bool_decide (socket <> oldSocket)
  then
    if bool_decide (socket = Some OPEN) then Some Connect
    else if bool_decide (oldSocket = Some OPEN)
         then Some (Disconnect 1000 "Socket replaced")
         else None
  else None.

(** The [socket] setter. *)
Definition set_socket (h : nat) (socket : option nat) : M unit :=
  hd <- get_handler h ;;
  if decide (socket = _socket hd) then ret tt else
  let oldSocket := _socket hd in
  put_handler h (with_socket socket hd) ;;;
  setupSocket h ;;;
  new_rs <- readyState_of socket ;;
  old_rs <- readyState_of oldSocket ;;
  match swap_event new_rs old_rs with
  | Some e => emit h e
  | None => ret tt
  end.

(** The [connected] getter. *)
Definition connected (h : nat) : M bool :=
  hd <- get_handler h ;;
  rs <- readyState_of (_socket hd) ;;
  ret (match rs with Some r => is_OPEN r | None => false end).

Definition sendRequest (h : nat) (payload : list (string * json))
  (ack : option JsError) : M unit :=
  hd <- get_handler h ;;
  match _socket hd with
  | None => throw (EMsg "WebSocket disconnected")
  | Some s =>
      let data := spread [("src", JStr (clientId (h_options hd)))] payload in
      ws_send s (JObj data) ack
  end.

Definition handleRequest (h : nat) (payload : list (string * json))
  (ack : option JsError) : M unit :=
  c <- connected h ;;
  if negb c then throw (EMsg "WebSocket disconnected")
  else sendRequest h payload ack.

Definition handleOpen (h : nat) : M unit := emit h Connect.

Definition handleClose (h : nat) (code : Z) (reason : string) : M unit :=
  hd <- get_handler h ;;
  match _socket hd with
  | Some s =>
      sock_off s EvOpen (openHandler h) ;;;
      sock_off s EvClose (closeHandler h) ;;;
      sock_off s EvMessage (messageHandler h) ;;;
      sock_off s EvError (errorHandler h)
  | None => ret tt
  end ;;;
  emit h (Disconnect code reason).

Definition handleError (h : nat) (message : string) : M unit :=
  emit h (Error message).

Definition JSON_parse (data : Frame) : M json :=
  match data with
  | Garbled _ => throw ESyntax
  | Parsed d => ret d
  end.

(** [d.k] where [d] may be [null]. *)
Definition read_prop (d : json) (k : string) : M (option json) :=
  match d with
  | JNull => throw ETypeNull
  | _ => ret (get_prop d k)
  end.

(** *** The correlation client *)

Definition find_pending (id : option json) (l : list PendingRequest)
  : option PendingRequest :=
  match id with
  | Some (JNum n) => find (fun pr => correlationId pr =? n) l
  | _ => None
  end.

Definition drop_pending (n : Z) (l : list PendingRequest) : list PendingRequest :=
  filter (fun pr => correlationId pr <> n) l.

(** Modelled from the spec: the Correlation Client is the [JSONRPCClient] of the
    json-rpc-2.0 package, which is not part of the sources.  [send] assigns a
    fresh correlation id, stores a PendingRequest with its expiry timer, passes
    [{id, method, params}] to the transmit function and returns the future; when
    the transmit function reports failure the future rejects at once and the
    PendingRequest is removed. *)
Definition client_send (h : nat) (method : string) (params : option json)
  (timeout : Z) (transmit : list (string * json) -> M unit) : M nat :=
  hd <- get_handler h ;;
  let id := nextId (client hd) in
  p <- new_future ;;
  put_handler h (with_client (fun c =>
      mkClient (id + 1) (pending c ++ [mkPending id p timeout])) hd) ;;;
  let payload := [("id", JNum id); ("method", JStr method)]
                 ++ match params with Some v => [("params", v)] | None => [] end in
  try_catch (transmit payload)
    (fun e =>
       modify_handler h (with_client (fun c =>
           mkClient (nextId c) (drop_pending id (pending c)))) ;;;
       settle p (FRejected e)) ;;;
  ret p.

(** Modelled from the spec: [receive] of the Correlation Client.  A response
    whose [id] names a PendingRequest settles it with the response's
    [result] or [error], removes it and clears its timer; any other
    response is discarded silently. *)
Definition client_receive (h : nat) (d : json) : M unit :=
  hd <- get_handler h ;;
  match find_pending (get_prop d "id") (pending (client hd)) with
  | None => ret tt
  | Some pr =>
      put_handler h (with_client (fun c =>
          mkClient (nextId c) (drop_pending (correlationId pr) (pending c))) hd) ;;;
      match get_prop d "error" with
      | Some e => settle (resultFuture pr) (FRejected (ERpc e))
      | None => settle (resultFuture pr) (FResolved (get_prop d "result"))
      end
  end.

Fixpoint reject_each (reason : string) (l : list PendingRequest) : M unit :=
  match l with
  | [] => ret tt
  | pr :: rest => settle (resultFuture pr) (FRejected (EMsg reason)) ;;;
                  reject_each reason rest
  end.

(** Modelled from the spec: [rejectAll] of the Correlation Client rejects every
    outstanding PendingRequest with the reason, clears all timers and empties
    the pending set. *)
Definition client_rejectAll (h : nat) (reason : string) : M unit :=
  hd <- get_handler h ;;
  put_handler h (with_client (fun c => mkClient (nextId c) []) hd) ;;;
  reject_each reason (pending (client hd)).

(** *** Requests, dispatch and teardown *)

Definition request (h : nat) (method : string) (params : option json)
  (ack : option JsError) : M nat :=
  emit h (Request method params) ;;;
  hd <- get_handler h ;;
  client_send h method params (requestTimeout (h_options hd) * 1000)
    (fun payload => handleRequest h payload ack).

Definition handleMessage (h : nat) (data : Frame) : M unit :=
  d <- JSON_parse data ;;
  id <- read_prop d "id" ;;
  if truthy id then client_receive h d
  else
    method <- read_prop d "method" ;;
    if is_str method "NotifyStatus" || is_str method "NotifyFullStatus" then
      params <- read_prop d "params" ;; emit h (StatusUpdate params)
    else if is_str method "NotifyEvent" then
      params <- read_prop d "params" ;; emit h (Event params)
    else ret tt.

(** [awaitDisconnect], settling the promise [p] that [disconnect] returned. *)
Definition awaitDisconnect (h : nat) (p : nat) : M unit :=
  hd <- get_handler h ;;
  match _socket hd with
  | None => settle p (FResolved None)
  | Some s =>
      sk <- get_socket s ;;
      match readyState sk with
      | CLOSED => settle p (FResolved None)
      | CLOSING => sock_once s EvClose (resolveAwait p)
      | _ => settle p (FRejected (EMsg "WebSocket is not disconnecting"))
      end
  end.

Definition disconnect (h : nat) : M nat :=
  p <- new_future ;;
  hd <- get_handler h ;;
  match _socket hd with
  | None => settle p (FResolved None)
  | Some s =>
      sk <- get_socket s ;;
      match readyState sk with
      | OPEN | CONNECTING =>
          ws_close s 1000 "User request" ;;;
          awaitDisconnect h p
      | CLOSING => awaitDisconnect h p
      | CLOSED => settle p (FResolved None)
      end
  end ;;;
  ret p.

Definition destroy (h : nat) : M nat :=
  client_rejectAll h "Connection closed" ;;;
  disconnect h.

(** ** OutboundWebSocketServer *)

Definition server_emit (e : ServerEvent) : M unit :=
  fun w => Ok tt (set_serverEmitted (fun l => l ++ [e]) w).

Definition handleListening : M unit := server_emit SListening.
Definition server_handleClose : M unit := server_emit SClose.
Definition server_handleError (e : JsError) : M unit := server_emit (SError e).

(** [new OutboundWebSocketRpcHandler(socket, options)] *)
Definition new_handler (socket : option nat) (opts : Options) : M nat :=
  fun w =>
    let h := length (handlers w) in
    (setupSocket h ;;; ret h)
      (set_handlers (fun l => l ++ [mkHandler socket opts (mkClient 1 []) []]) w).

Definition registry_set (deviceId : string) (h : nat) : M unit :=
  fun w => Ok tt (set_rpcHandlers (fun m => <[deviceId := h]> m) w).

Definition getRpcHandler (deviceId : string) : M nat :=
  fun w =>
    match rpcHandlers w !! deviceId with
    | Some rpcHandler => Ok rpcHandler w
    | None =>
        (rpcHandler <- new_handler None (options w) ;;
         registry_set deviceId rpcHandler ;;;
         ret rpcHandler) w
    end.

(** [removeListeners] of the [handleConnection] call numbered [conn]. *)
Definition removeListeners (conn socket : nat) : M unit :=
  sock_off socket EvMessage (srvMessageHandler conn socket) ;;;
  sock_off socket EvClose (srvCloseHandler conn socket) ;;;
  sock_off socket EvError (srvErrorHandler conn socket).

(** The ['message'] closure of [handleConnection]; [socket_emit] is
    [socket.emit]. *)
Definition srv_messageHandler
  (socket_emit : nat -> SockEvent -> EventArg -> M unit)
  (conn socket : nat) (data : Frame) : M unit :=
  try_catch
    (d <- JSON_parse data ;;
     src <- read_prop d "src" ;;
     match src with
     | Some (JStr deviceId) =>
         fun w =>
           match rpcHandlers w !! deviceId with
           | Some rpcHandler =>
               (set_socket rpcHandler (Some socket) ;;;
                socket_emit socket EvMessage (ArgMessage data)) w
           | None =>
               (rpcHandler <- new_handler (Some socket) (options w) ;;
                registry_set deviceId rpcHandler ;;;
                server_emit (SDiscover deviceId "outboundWebsocket")) w
           end
     | _ => throw (ESourceMissing src)
     end)
    (fun e => server_emit (SError e)) ;;;
  removeListeners conn socket.

Definition srv_closeHandler (conn socket : nat) (code : Z) : M unit :=
  server_emit (SError (EClosedUnexpectedly code)) ;;;
  removeListeners conn socket.

Definition srv_errorHandler (conn socket : nat) (message : string) : M unit :=
  server_emit (SError (EIncoming message)) ;;;
  removeListeners conn socket.

Definition handleConnection (socket : nat) : M unit :=
  server_emit (SConnection socket) ;;;
  fun w =>
    let conn := connections w in
    (sock_once socket EvMessage (srvMessageHandler conn socket) ;;;
     sock_once socket EvClose (srvCloseHandler conn socket) ;;;
     sock_once socket EvError (srvErrorHandler conn socket))
      (set_connections S w).

(** ** Event delivery *)

(** Calling a registered function with the arguments of the event. *)
Definition call_listener
  (socket_emit : nat -> SockEvent -> EventArg -> M unit)
  (fn : Listener) (arg : EventArg) : M unit :=
  match fn, arg with
  | openHandler h, _ => handleOpen h
  | closeHandler h, ArgClose code reason => handleClose h code reason
  | messageHandler h, ArgMessage data => handleMessage h data
  | errorHandler h, ArgError message => handleError h message
  | srvMessageHandler conn socket, ArgMessage data =>
      srv_messageHandler socket_emit conn socket data
  | srvCloseHandler conn socket, ArgClose code _ => srv_closeHandler conn socket code
  | srvErrorHandler conn socket, ArgError message => srv_errorHandler conn socket message
  | resolveAwait p, _ => settle p (FResolved None)
  | _, _ => stuck
  end.

(** A [once] registration takes itself out before its function runs. *)
Definition unregister_once (s : nat) (r : Registration) : M unit :=
  if reg_once r then
    modify_socket s (with_listeners (remove_first (fun r' =>
      reg_matches (reg_event r) (reg_fn r) r' && reg_once r')))
  else ret tt.

(** The registrations are called in order from a copy taken when the event is
    emitted; an exception ends the delivery. *)
Fixpoint run_listeners (call : Listener -> EventArg -> M unit) (s : nat)
  (regs : list Registration) (arg : EventArg) : M unit :=
  match regs with
  | [] => ret tt
  | r :: rest =>
      unregister_once s r ;;;
      call (reg_fn r) arg ;;;
      run_listeners call s rest arg
  end.

Definition registered (ev : SockEvent) (sk : Socket) : list Registration :=
  filter (fun r => reg_event r = ev) (listeners sk).

(** Node throws the error of an ['error'] event that nobody listens to. *)
Definition unhandled (ev : SockEvent) (regs : list Registration) (arg : EventArg)
  : option JsError :=
  match ev, regs, arg with
  | EvError, [], ArgError message => Some (EMsg message)
  | _, _, _ => None
  end.

(** [socket.emit(ev, ...)].  A listener may itself emit on a socket; [depth]
    bounds that nesting. *)
Fixpoint emit_at (depth : nat) (s : nat) (ev : SockEvent) (arg : EventArg) : M unit :=
  match depth with
  | O => stuck
  | S depth' =>
      sk <- get_socket s ;;
      match unhandled ev (registered ev sk) arg with
      | Some e => throw e
      | None =>
          run_listeners (call_listener (emit_at depth')) s (registered ev sk) arg
      end
  end.

(** Every nested emit is made by a [once] closure of the server that has just
    been taken out, so the registrations of the socket bound the nesting. *)
Definition socket_emit (s : nat) (ev : SockEvent) (arg : EventArg) : M unit :=
  sk <- get_socket s ;;
  emit_at (S (length (listeners sk))) s ev arg.

(** *** What the ws package reports *)

Definition with_readyState (r : ReadyState) (sk : Socket) : Socket :=
  mkSocket r (listeners sk) (sent sk) (closeCalls sk).

Definition ws_open (s : nat) : M unit :=
  modify_socket s (with_readyState OPEN) ;;;
  socket_emit s EvOpen ArgNone.

Definition ws_message (s : nat) (data : Frame) : M unit :=
  socket_emit s EvMessage (ArgMessage data).

Definition ws_closed (s : nat) (code : Z) (reason : string) : M unit :=
  modify_socket s (with_readyState CLOSED) ;;;
  socket_emit s EvClose (ArgClose code reason).

Definition ws_error (s : nat) (message : string) : M unit :=
  socket_emit s EvError (ArgError message).

(** *** Building worlds *)

Definition DEFAULT_SERVER_OPTIONS (generated : string) : Options :=
  mkOptions ("node-shellies-ng-" ++ generated) 10.

Definition new_server (opts : Options) : World :=
  mkWorld [] [] [] ∅ opts 0 [].

(** A socket of the ws package that nobody listens to yet. *)
Definition new_socket (r : ReadyState) : M nat :=
  fun w => Ok (length (sockets w)) (set_sockets (fun l => l ++ [mkSocket r [] [] []]) w).

(** ** Reading the store *)

(** Whether [socket] is a socket of [w] in the [OPEN] state ([null] is not). *)
Definition socket_open (w : World) (socket : option nat) : bool :=
  match socket with
  | Some s =>
      match sockets w !! s with
      | Some sk => is_OPEN (readyState sk)
      | None => false
      end
  | None => false
  end.

(** What handler [h] has emitted so far. *)
Definition emitted_by (w : World) (h : nat) : list HandlerEvent :=
  match handlers w !! h with
  | Some hd => emitted hd
  | None => []
  end.

Definition handler_regs (h : nat) : list Registration :=
  [mkReg EvOpen (openHandler h) false; mkReg EvClose (closeHandler h) false;
   mkReg EvMessage (messageHandler h) false; mkReg EvError (errorHandler h) false].

(** Whether one of the handler's four bound methods is registered on [sk]. *)
Definition bound_to (h : nat) (sk : Socket) : bool :=
  has_listener EvOpen (openHandler h) sk || has_listener EvClose (closeHandler h) sk
  || has_listener EvMessage (messageHandler h) sk
  || has_listener EvError (errorHandler h) sk.

(** ** Notions used by the statements *)

(** The [readyState] of [socket] in [w]; [None] for [null]. *)
Definition state_of (w : World) (socket : option nat) : option ReadyState :=
  match socket with
  | Some s => readyState <$> sockets w !! s
  | None => None
  end.

Definition add_event (e : option HandlerEvent) (hd : Handler) : Handler :=
  match e with
  | Some e => with_emitted (fun l => l ++ [e]) hd
  | None => hd
  end.

Definition two_sockets (first second : ReadyState) : World :=
  mkWorld [mkSocket first (handler_regs 0) [] []; mkSocket second [] [] []]
          [mkHandler (Some 0%nat) (mkOptions "controller" 10) (mkClient 1 []) []]
          [] ∅ (mkOptions "controller" 10) 0 [].

(** [n] calls of [getRpcHandler] in a row, with what each returned. *)
Fixpoint getRpcHandler_times (n : nat) (deviceId : string) : M (list nat) :=
  match n with
  | O => ret []
  | S n' =>
      rpcHandler <- getRpcHandler deviceId ;;
      more <- getRpcHandler_times n' deviceId ;;
      ret (rpcHandler :: more)
  end.

Definition idle_handler (socket : option nat) (r : ReadyState) : World :=
  mkWorld [mkSocket r (handler_regs 0) [] []]
          [mkHandler socket (mkOptions "controller" 10) (mkClient 1 []) []]
          [] ∅ (mkOptions "controller" 10) 0 [].

Fixpoint assoc_remove (k : string) (fields : list (string * json))
  : list (string * json) :=
  match fields with
  | [] => []
  | (k', v) :: rest =>
      if String.eqb k k' then assoc_remove k rest else (k', v) :: assoc_remove k rest
  end.

Definition awaiting (id : Z) : World :=
  mkWorld [mkSocket OPEN (handler_regs 0) [] []]
          [mkHandler (Some 0%nat) (mkOptions "controller" 10)
                     (mkClient (id + 1) [mkPending id 0 10000]) []]
          [FPending] ∅ (mkOptions "controller" 10) 0 [].

Definition srv_regs (conn socket : nat) : list Registration :=
  [mkReg EvMessage (srvMessageHandler conn socket) true;
   mkReg EvClose (srvCloseHandler conn socket) true;
   mkReg EvError (srvErrorHandler conn socket) true].

(** The device id a first frame announces, if it announces one. *)
Definition frame_src (data : Frame) : option string :=
  match data with
  | Parsed JNull => None
  | Parsed d =>
      match get_prop d "src" with
      | Some (JStr deviceId) => Some deviceId
      | _ => None
      end
  | Garbled _ => None
  end.

(** The store after the server has seen connection [s] fail with [e] and has
    let go of it. *)
Definition abandoned (w : World) (s : nat) (e : JsError) (sks : list Socket) : World :=
  mkWorld sks (handlers w) (futures w) (rpcHandlers w) (options w)
          (S (connections w)) (serverEmitted w ++ [SConnection s; SError e]).

(** The error a first frame without a usable [src] is reported with. *)
Definition first_frame_error (data : Frame) : JsError :=
  match data with
  | Garbled _ => ESyntax
  | Parsed JNull => ETypeNull
  | Parsed d => ESourceMissing (get_prop d "src")
  end.

Definition one_connection (r : ReadyState) : World :=
  mkWorld [mkSocket r [] [] []] [] [] ∅ (mkOptions "controller" 10) 0 [].

Definition status_frame (deviceId : string) : Frame :=
  Parsed (JObj [("src", JStr deviceId); ("method", JStr "NotifyStatus");
                ("params", JObj [("ble", JObj [])])]).

(** A device connects on socket 0, a request is made, the device reconnects on
    socket 1, and the handler is destroyed; socket 1 then reports its close. *)
Definition reconnect_then_destroy : M nat :=
  s0 <- new_socket OPEN ;;
  handleConnection s0 ;;;
  ws_message s0 (status_frame "shellyplus1-aabbcc") ;;;
  rpcHandler <- getRpcHandler "shellyplus1-aabbcc" ;;
  request rpcHandler "Shelly.GetStatus" None None ;;;
  s1 <- new_socket OPEN ;;
  handleConnection s1 ;;;
  ws_message s1 (status_frame "shellyplus1-aabbcc") ;;;
  destroyed <- destroy rpcHandler ;;
  ws_closed s1 1000 "User request" ;;;
  ret destroyed.

(** ** Relations between stores, and more stores *)

(** The part of a socket that only the ws package and calls of [send] and
    [close] change. *)
Definition vitals (sk : Socket) : ReadyState * list json * list (Z * string) :=
  (readyState sk, sent sk, closeCalls sk).

(** Between [w] and [w'] no socket was added, removed, sent on, closed or moved
    to another [readyState]. *)
Definition quiet (w w' : World) : Prop :=
  vitals <$> sockets w' = vitals <$> sockets w.

(** Between [w] and [w'] nothing was taken back: registry entries, handlers
    and their options are kept, emitted events are only added to, and a
    promise that was settled is settled the same way. *)
Definition grows (w w' : World) : Prop :=
  rpcHandlers w ⊆ rpcHandlers w' /\
  (forall h hd, handlers w !! h = Some hd ->
     exists hd', handlers w' !! h = Some hd' /\
                 h_options hd' = h_options hd /\
                 emitted hd `prefix_of` emitted hd') /\
  (forall p st, futures w !! p = Some st ->
     exists st', futures w' !! p = Some st' /\ (st <> FPending -> st' = st)) /\
  serverEmitted w `prefix_of` serverEmitted w' /\
  options w' = options w.

Definition calm (w w' : World) : Prop := quiet w w' /\ grows w w'.

(** [m], run on [w], ends in a store related to [w] by [R], whether it returns
    or throws. *)
Definition keeps_at (R : World -> World -> Prop) {A} (m : M A) (w : World) : Prop :=
  match m w with
  | Ok _ w' => R w w'
  | Exn _ w' => R w w'
  | Stuck => True
  end.

Definition keeps (R : World -> World -> Prop) {A} (m : M A) : Prop :=
  forall w, keeps_at R m w.

Definition same_registry (w w' : World) : Prop := rpcHandlers w' = rpcHandlers w.

(** The run [r] came to an end, by returning or by throwing, in the store
    [w']. *)
Definition ended {A} (r : Res A) (w' : World) : Prop :=
  match r with
  | Ok _ x => x = w'
  | Exn _ x => x = w'
  | Stuck => False
  end.

(** The store in which a connecting socket bound to handler 0 has reported
    ['open']. *)
Definition opened : World :=
  Eval vm_compute in
    match ws_open 0 (idle_handler (Some 0%nat) CONNECTING) with
    | Ok _ w' => w'
    | _ => idle_handler (Some 0%nat) CONNECTING
    end.

(** The store after the first frame of a device the server did not know:
    a new handler owns the socket, has emitted nothing and is the registry's
    entry for the device; ['discover'] is emitted; the socket carries the
    handler's registrations and none of the server's. *)
Definition discovered (w : World) (s : nat) (sk : Socket) (deviceId : string) : World :=
  mkWorld (<[s := with_listeners (fun _ => handler_regs (length (handlers w))) sk]>
             (sockets w))
          (handlers w ++ [mkHandler (Some s) (options w) (mkClient 1 []) []])
          (futures w)
          (<[deviceId := length (handlers w)]> (rpcHandlers w))
          (options w) (S (connections w))
          (serverEmitted w ++ [SConnection s; SDiscover deviceId "outboundWebsocket"]).

(** What [handleClose] does to the registrations of the current socket. *)
Definition unbind (h : nat) (l : list Registration) : list Registration :=
  remove_last (reg_matches EvError (errorHandler h))
    (remove_last (reg_matches EvMessage (messageHandler h))
       (remove_last (reg_matches EvClose (closeHandler h))
          (remove_last (reg_matches EvOpen (openHandler h)) l))).

(** Only the handlers and the promises differ between [w] and [w']; the
    handler [h] is still there, on the same socket. *)
Definition dispatched (h : nat) (w w' : World) : Prop :=
  sockets w' = sockets w /\ rpcHandlers w' = rpcHandlers w /\
  options w' = options w /\ connections w' = connections w /\
  serverEmitted w' = serverEmitted w /\
  length (handlers w') = length (handlers w) /\
  (_socket <$> handlers w' !! h) = (_socket <$> handlers w !! h).

(** The device of socket 0 is known to the server; socket 1 is a new
    connection. *)
Definition known_device : World :=
  set_rpcHandlers (fun m => <["shellyplus1-aabbcc" := 0%nat]> m) (two_sockets OPEN OPEN).

(** The server knows the device, but its handler has no socket yet. *)
Definition awaited_device : World :=
  mkWorld [mkSocket OPEN [] [] []]
          [mkHandler None (mkOptions "controller" 10) (mkClient 1 []) []]
          [] {["shellyplus1-aabbcc" := 0%nat]} (mkOptions "controller" 10) 0 [].

(** The store after a request was made on the open socket of handler 0. *)
Definition asked : World :=
  Eval vm_compute in
    match request 0 "Shelly.GetStatus" None None (idle_handler (Some 0%nat) OPEN) with
    | Ok _ w' => w'
    | _ => idle_handler (Some 0%nat) OPEN
    end.

(** The registrations [awaitDisconnect] leaves on a socket: one
    [once('close', resolve)] for each promise of [ps]. *)
Definition awaits (ps : list nat) : list Registration :=
  (fun p => mkReg EvClose (resolveAwait p) true) <$> ps.

(** The handler of socket 0 was destroyed while the socket was still
    connecting: the socket is closing, the promise of [destroy] waits for its
    close, and the handler has never emitted anything. *)
Definition closing_down : World :=
  mkWorld [mkSocket CLOSING (handler_regs 0 ++ awaits [0%nat]) []
                    [(1000, "User request")]]
          [mkHandler (Some 0%nat) (mkOptions "controller" 10) (mkClient 1 []) []]
          [FPending] ∅ (mkOptions "controller" 10) 0 [].

(** ** Running the definitions *)

Lemma modify_socket_ok (w : World) (s : nat) (sk : Socket) (f : Socket -> Socket) :
  sockets w !! s = Some sk ->
  modify_socket s f w = Ok tt (set_sockets (fun l => <[s := f sk]> l) w).
Proof.
  intros Hs. unfold modify_socket, bind, get_socket. now rewrite Hs.
Qed.

Lemma modify_handler_ok (w : World) (h : nat) (hd : Handler) (f : Handler -> Handler) :
  handlers w !! h = Some hd ->
  modify_handler h f w = Ok tt (set_handlers (fun l => <[h := f hd]> l) w).
Proof.
  intros Hh. unfold modify_handler, bind, get_handler. now rewrite Hh.
Qed.

Lemma sockets_insert_lookup (w : World) (s : nat) (sk sk' : Socket) :
  sockets w !! s = Some sk ->
  sockets (set_sockets (fun l => <[s := sk']> l) w) !! s = Some sk'.
Proof.
  intros Hs. cbn. apply list_lookup_insert_eq. eapply lookup_lt_Some, Hs.
Qed.

Lemma handlers_insert_lookup (w : World) (h : nat) (hd hd' : Handler) :
  handlers w !! h = Some hd ->
  handlers (set_handlers (fun l => <[h := hd']> l) w) !! h = Some hd'.
Proof.
  intros Hh. cbn. apply list_lookup_insert_eq. eapply lookup_lt_Some, Hh.
Qed.

Lemma set_sockets_twice (w : World) (s : nat) (a b : Socket) :
  set_sockets (fun l => <[s := b]> l) (set_sockets (fun l => <[s := a]> l) w)
  = set_sockets (fun l => <[s := b]> l) w.
Proof.
  unfold set_sockets; cbn. now rewrite list_insert_insert_eq.
Qed.

Lemma set_handlers_twice (w : World) (h : nat) (a b : Handler) :
  set_handlers (fun l => <[h := b]> l) (set_handlers (fun l => <[h := a]> l) w)
  = set_handlers (fun l => <[h := b]> l) w.
Proof.
  unfold set_handlers; cbn. now rewrite list_insert_insert_eq.
Qed.

Lemma emit_ok (w : World) (h : nat) (hd : Handler) (e : HandlerEvent) :
  handlers w !! h = Some hd ->
  emit h e w
  = Ok tt (set_handlers (fun l => <[h := with_emitted (fun l => l ++ [e]) hd]> l) w).
Proof. intros Hh. unfold emit. now apply modify_handler_ok. Qed.

(** [setupSocket] appends the four bound methods to the current socket and
    touches nothing else. *)
Lemma setupSocket_ok (w : World) (h : nat) (hd : Handler) (s : nat) (sk : Socket) :
  handlers w !! h = Some hd ->
  _socket hd = Some s ->
  sockets w !! s = Some sk ->
  setupSocket h w
  = Ok tt (set_sockets (fun l =>
       <[s := with_listeners (fun l => l ++ handler_regs h) sk]> l) w).
Proof.
  intros Hh Hsock Hs.
  unfold setupSocket, bind at 1, get_handler. rewrite Hh, Hsock.
  unfold sock_on, bind.
  rewrite (modify_socket_ok w s sk) by exact Hs.
  erewrite modify_socket_ok by (eapply sockets_insert_lookup, Hs).
  rewrite set_sockets_twice.
  erewrite modify_socket_ok by (eapply sockets_insert_lookup, Hs).
  rewrite set_sockets_twice.
  erewrite modify_socket_ok by (eapply sockets_insert_lookup, Hs).
  rewrite set_sockets_twice.
  unfold with_listeners, handler_regs; cbn.
  now rewrite <- !app_assoc.
Qed.

Lemma setupSocket_null (w : World) (h : nat) (hd : Handler) :
  handlers w !! h = Some hd ->
  _socket hd = None ->
  setupSocket h w = Ok tt w.
Proof.
  intros Hh Hsock. unfold setupSocket, bind, get_handler. now rewrite Hh, Hsock.
Qed.

Lemma readyState_of_ok (w : World) (socket : option nat) :
  (forall s, socket = Some s -> is_Some (sockets w !! s)) ->
  readyState_of socket w = Ok (state_of w socket) w.
Proof.
  intros Hv. destruct socket as [s|]; cbn; [|reflexivity].
  destruct (Hv s eq_refl) as [sk Hs].
  unfold bind, get_socket. now rewrite Hs.
Qed.

(** The setter, run on a socket other than the current one: the handler record
    gets the new socket and the event of [swap_event]; the new socket gets the
    four registrations; no other socket and nothing else in the store
    changes. *)
Lemma set_socket_run (w : World) (h : nat) (hd : Handler) (socket : option nat) :
  handlers w !! h = Some hd ->
  socket <> _socket hd ->
  (forall s, socket = Some s -> is_Some (sockets w !! s)) ->
  (forall s, _socket hd = Some s -> is_Some (sockets w !! s)) ->
  exists w',
    set_socket h socket w = Ok tt w' /\
    handlers w' = <[h := add_event (swap_event (state_of w socket)
                                               (state_of w (_socket hd)))
                                   (with_socket socket hd)]> (handlers w) /\
    (forall s', socket <> Some s' -> sockets w' !! s' = sockets w !! s') /\
    (forall s sk, socket = Some s -> sockets w !! s = Some sk ->
       sockets w' !! s = Some (with_listeners (fun l => l ++ handler_regs h) sk)) /\
    futures w' = futures w /\ rpcHandlers w' = rpcHandlers w /\
    options w' = options w /\ connections w' = connections w /\
    serverEmitted w' = serverEmitted w.
Proof.
  intros Hh Hne Hnew Hold.
  unfold set_socket, bind at 1, get_handler. rewrite Hh.
  destruct (decide (socket = _socket hd)) as [->|_]; [done|].
  unfold bind at 1, put_handler.
  set (w1 := set_handlers _ w).
  assert (Hh1 : handlers w1 !! h = Some (with_socket socket hd))
    by (eapply handlers_insert_lookup, Hh).
  assert (exists w2, setupSocket h w1 = Ok tt w2 /\ handlers w2 = handlers w1 /\
            (forall s', socket <> Some s' -> sockets w2 !! s' = sockets w !! s') /\
            (forall s sk, socket = Some s -> sockets w !! s = Some sk ->
               sockets w2 !! s
               = Some (with_listeners (fun l => l ++ handler_regs h) sk)) /\
            state_of w2 socket = state_of w socket /\
            futures w2 = futures w /\ rpcHandlers w2 = rpcHandlers w /\
            options w2 = options w /\ connections w2 = connections w /\
            serverEmitted w2 = serverEmitted w) as (w2 & Hrun & Hh2 & Hframe & Hnews & Hst & Hrest).
  { destruct socket as [s|].
    - destruct (Hnew s eq_refl) as [sk Hs].
      eexists; split; [eapply setupSocket_ok; [exact Hh1|reflexivity|exact Hs]|].
      cbn. split; [reflexivity|]. split; [|split; [|split]].
      + intros s' Hs'. apply list_lookup_insert_ne. congruence.
      + intros s0 sk0 [= <-] Hsk0. rewrite Hs in Hsk0. injection Hsk0 as <-.
        apply list_lookup_insert_eq. eapply lookup_lt_Some, Hs.
      + rewrite list_lookup_insert_eq by (eapply lookup_lt_Some, Hs).
        now rewrite Hs.
      + done.
    - exists w1. split; [eapply setupSocket_null; [exact Hh1|reflexivity]|].
      cbn. repeat split; done. }
  unfold bind at 1. rewrite Hrun.
  assert (Hold2 : state_of w2 (_socket hd) = state_of w (_socket hd)).
  { destruct (_socket hd) as [o|] eqn:Eo; [|reflexivity]. cbn.
    rewrite Hframe by congruence. reflexivity. }
  unfold bind at 1. rewrite readyState_of_ok.
  2:{ intros s ->. destruct (Hnew s eq_refl) as [sk Hs].
      rewrite (Hnews s sk eq_refl Hs). eauto. }
  unfold bind at 1. rewrite readyState_of_ok.
  2:{ intros s Hs. destruct (Hold s Hs) as [sk Hsk].
      assert (socket <> Some s) by congruence.
      rewrite Hframe by done. eauto. }
  rewrite Hst, Hold2.
  destruct Hrest as (Hf & Hr & Ho & Hc & Hse).
  destruct (swap_event _ _) as [e|] eqn:Ee; cbn [add_event].
  - assert (Hh2' : handlers w2 !! h = Some (with_socket socket hd))
      by (rewrite Hh2; exact Hh1).
    rewrite (emit_ok w2 h _ e Hh2').
    eexists; split; [reflexivity|]. cbn.
    rewrite Hh2. subst w1. cbn. rewrite list_insert_insert_eq.
    repeat split; done.
  - exists w2. split; [reflexivity|].
    rewrite Hh2. subst w1. cbn. repeat split; done.
Qed.

Lemma emitted_by_insert (w w' : World) (h : nat) (hd hd' : Handler) :
  handlers w !! h = Some hd ->
  handlers w' = <[h := hd']> (handlers w) ->
  emitted_by w' h = emitted hd'.
Proof.
  intros Hh Hw'. unfold emitted_by. rewrite Hw'.
  rewrite list_lookup_insert_eq by (eapply lookup_lt_Some, Hh). reflexivity.
Qed.

(** ** Socket replacement *)

(** C1: when a handler that has a socket is given another socket (or [null]),
    the setter emits exactly one event if the swap crosses the [OPEN] boundary
    ([connect] when the new socket is open and the old one is not,
    [disconnect] the other way round) and emits nothing when both are open or
    neither is. *)
Theorem socket_replacement_emits_on_crossing
  (w : World) (h : nat) (hd : Handler) (old : nat) (socket : option nat) :
  handlers w !! h = Some hd ->
  _socket hd = Some old ->
  is_Some (sockets w !! old) ->
  socket <> Some old ->
  (forall s, socket = Some s -> is_Some (sockets w !! s)) ->
  exists w',
    set_socket h socket w = Ok tt w' /\
    (socket_open w (Some old) = false -> socket_open w socket = true ->
       emitted_by w' h = emitted hd ++ [Connect]) /\
    (socket_open w (Some old) = true -> socket_open w socket = false ->
       emitted_by w' h = emitted hd ++ [Disconnect 1000 "Socket replaced"]) /\
    (socket_open w (Some old) = socket_open w socket ->
       emitted_by w' h = emitted hd).
Proof.
  intros Hh Hsock [sold Hold] Hne Hnew.
  destruct (set_socket_run w h hd socket Hh) as (w' & Hrun & Hhs & _).
  - congruence.
  - exact Hnew.
  - intros s Hs. rewrite Hsock in Hs. injection Hs as <-. eauto.
  - exists w'. split; [exact Hrun|].
    rewrite !(emitted_by_insert w w' h hd _ Hh Hhs).
    unfold socket_open, state_of. rewrite Hsock, Hold.
    destruct socket as [s|].
    + destruct (Hnew s eq_refl) as [sk Hs]. rewrite Hs. cbn.
      destruct (readyState sk), (readyState sold); cbn;
        repeat split; intros; first [discriminate | reflexivity].
    + cbn. destruct (readyState sold); cbn;
        repeat split; intros; first [discriminate | reflexivity].
Qed.

Lemma socket_replacement_emits_on_crossing_witness :
  exists w',
    set_socket 0 (Some 1%nat) (two_sockets CONNECTING OPEN) = Ok tt w' /\
    (socket_open (two_sockets CONNECTING OPEN) (Some 0%nat) = false ->
     socket_open (two_sockets CONNECTING OPEN) (Some 1%nat) = true ->
     emitted_by w' 0 = [] ++ [Connect]) /\
    (socket_open (two_sockets CONNECTING OPEN) (Some 0%nat) = true ->
     socket_open (two_sockets CONNECTING OPEN) (Some 1%nat) = false ->
     emitted_by w' 0 = [] ++ [Disconnect 1000 "Socket replaced"]) /\
    (socket_open (two_sockets CONNECTING OPEN) (Some 0%nat)
     = socket_open (two_sockets CONNECTING OPEN) (Some 1%nat) ->
     emitted_by w' 0 = []).
Proof.
  apply (socket_replacement_emits_on_crossing (two_sockets CONNECTING OPEN) 0
           (mkHandler (Some 0%nat) (mkOptions "controller" 10) (mkClient 1 []) [])
           0 (Some 1%nat)).
  - reflexivity.
  - reflexivity.
  - eexists; reflexivity.
  - discriminate.
  - intros s [= <-]. eexists; reflexivity.
Defined.

(** Replacing the socket changes nothing on the socket that is replaced: its
    [readyState] stays, no [close()] is called on it, and its registrations
    stay as well. *)
Lemma set_socket_old_socket_untouched
  (w : World) (h : nat) (hd : Handler) (old : nat) (socket : option nat) :
  handlers w !! h = Some hd ->
  _socket hd = Some old ->
  is_Some (sockets w !! old) ->
  socket <> Some old ->
  (forall s, socket = Some s -> is_Some (sockets w !! s)) ->
  exists w',
    set_socket h socket w = Ok tt w' /\ sockets w' !! old = sockets w !! old.
Proof.
  intros Hh Hsock Hold Hne Hnew.
  destruct (set_socket_run w h hd socket Hh) as (w' & Hrun & _ & Hframe & _).
  - congruence.
  - exact Hnew.
  - intros s Hs. rewrite Hsock in Hs. injection Hs as <-. exact Hold.
  - exists w'. split; [exact Hrun|]. now apply Hframe.
Qed.

(** C5: a handler on the open socket 0 is given the open socket 1.  Socket 0 is
    not closed (still [OPEN], no [close()] call), but the handler's four
    registrations are still on it: the setter binds the new socket and never
    unbinds the old one. *)
Theorem socket_replacement_keeps_old_listeners :
  exists w' old_sk new_sk,
    set_socket 0 (Some 1%nat) (two_sockets OPEN OPEN) = Ok tt w' /\
    sockets w' !! 0%nat = Some old_sk /\
    sockets w' !! 1%nat = Some new_sk /\
    readyState old_sk = OPEN /\ closeCalls old_sk = [] /\
    listeners old_sk = handler_regs 0 /\ bound_to 0 old_sk = true /\
    listeners new_sk = handler_regs 0.
Proof.
  eexists _, _, _. vm_compute. repeat split; reflexivity.
Qed.

(** What the leftover registrations do: when the replaced socket 0 later
    closes, its [closeHandler] still runs, takes the registrations off the
    current socket 1 and emits [disconnect] although socket 1 is open. *)
Lemma stale_close_unbinds_current_socket :
  exists w1 w2 new_sk,
    set_socket 0 (Some 1%nat) (two_sockets OPEN OPEN) = Ok tt w1 /\
    ws_closed 0 1006 "" w1 = Ok tt w2 /\
    sockets w2 !! 1%nat = Some new_sk /\
    readyState new_sk = OPEN /\ listeners new_sk = [] /\
    emitted_by w2 0 = [Disconnect 1006 ""].
Proof.
  eexists _, _, _. vm_compute. repeat split; reflexivity.
Qed.

(** ** The handler registry *)

Lemma new_handler_null (w : World) (opts : Options) :
  new_handler None opts w
  = Ok (length (handlers w))
       (set_handlers (fun l => l ++ [mkHandler None opts (mkClient 1 []) []]) w).
Proof.
  unfold new_handler, bind.
  rewrite (setupSocket_null _ _ (mkHandler None opts (mkClient 1 []) []));
    [reflexivity| |reflexivity].
  cbn. now apply list_lookup_middle.
Qed.

Lemma getRpcHandler_known (w : World) (deviceId : string) (h : nat) :
  rpcHandlers w !! deviceId = Some h ->
  getRpcHandler deviceId w = Ok h w.
Proof. intros Hr. unfold getRpcHandler. now rewrite Hr. Qed.

Lemma getRpcHandler_times_known (n : nat) (w : World) (deviceId : string) (h : nat) :
  rpcHandlers w !! deviceId = Some h ->
  getRpcHandler_times n deviceId w = Ok (replicate n h) w.
Proof.
  intros Hr. induction n as [|n IH]; [reflexivity|].
  cbn [getRpcHandler_times replicate]. unfold bind at 1.
  rewrite (getRpcHandler_known w deviceId h Hr).
  unfold bind at 1. now rewrite IH.
Qed.

(** The two ways [getRpcHandler] runs. *)
Lemma getRpcHandler_run (w : World) (deviceId : string) :
  match rpcHandlers w !! deviceId with
  | Some stored => getRpcHandler deviceId w = Ok stored w
  | None =>
      getRpcHandler deviceId w
      = Ok (length (handlers w))
           (set_rpcHandlers (fun m => <[deviceId := length (handlers w)]> m)
              (set_handlers
                 (fun l => l ++ [mkHandler None (options w) (mkClient 1 []) []]) w))
  end.
Proof.
  destruct (rpcHandlers w !! deviceId) as [stored|] eqn:Hr.
  - now apply getRpcHandler_known.
  - unfold getRpcHandler. rewrite Hr. unfold bind at 1.
    rewrite new_handler_null. reflexivity.
Qed.

(** C2: [getRpcHandler] returns a handler that is then the registry's entry for
    the device id, and any number of further calls return that very handler and
    leave the store as it is.  When the id was unknown, the first call made a
    new handler without a socket and stored it; when it was known, the stored
    handler is returned and nothing is made. *)
Theorem getRpcHandler_same_instance (w : World) (deviceId : string) (n : nat) :
  exists rpcHandler w1,
    getRpcHandler deviceId w = Ok rpcHandler w1 /\
    rpcHandlers w1 !! deviceId = Some rpcHandler /\
    getRpcHandler_times n deviceId w1 = Ok (replicate n rpcHandler) w1 /\
    sockets w1 = sockets w /\
    match rpcHandlers w !! deviceId with
    | None =>
        rpcHandler = length (handlers w) /\
        handlers w !! rpcHandler = None /\
        handlers w1 = handlers w ++ [mkHandler None (options w) (mkClient 1 []) []] /\
        rpcHandlers w1 = <[deviceId := rpcHandler]> (rpcHandlers w)
    | Some stored => rpcHandler = stored /\ w1 = w
    end.
Proof.
  pose proof (getRpcHandler_run w deviceId) as Hrun.
  destruct (rpcHandlers w !! deviceId) as [stored|] eqn:Hr.
  - exists stored, w. repeat split; try done.
    now apply getRpcHandler_times_known.
  - eexists _, _. split; [exact Hrun|]. cbn.
    assert (Hstored : <[deviceId := length (handlers w)]> (rpcHandlers w) !! deviceId
                      = Some (length (handlers w)))
      by apply lookup_insert_eq.
    repeat split; try done.
    + apply getRpcHandler_times_known. exact Hstored.
    + apply lookup_ge_None_2. lia.
Qed.

(** Looking up another device leaves an entry of the registry as it is. *)
Lemma getRpcHandler_keeps_entries (w : World) (deviceId other : string) (h : nat) :
  rpcHandlers w !! deviceId = Some h ->
  exists h' w', getRpcHandler other w = Ok h' w' /\
                rpcHandlers w' !! deviceId = Some h.
Proof.
  intros Hr. pose proof (getRpcHandler_run w other) as Hrun.
  destruct (rpcHandlers w !! other) as [stored|] eqn:Ho.
  - exists stored, w. split; [exact Hrun|exact Hr].
  - eexists _, _. split; [exact Hrun|]. cbn.
    rewrite lookup_insert_ne; [exact Hr|congruence].
Qed.

(** ** Requests *)

Lemma connected_ok (w : World) (h : nat) (hd : Handler) :
  handlers w !! h = Some hd ->
  (forall s, _socket hd = Some s -> is_Some (sockets w !! s)) ->
  connected h w = Ok (socket_open w (_socket hd)) w.
Proof.
  intros Hh Hv. unfold connected, bind at 1, get_handler. rewrite Hh.
  unfold bind. rewrite (readyState_of_ok w _ Hv). unfold ret, socket_open, state_of.
  destruct (_socket hd) as [s|]; [|reflexivity].
  destruct (sockets w !! s); reflexivity.
Qed.

Lemma handleRequest_disconnected (w : World) (h : nat) (hd : Handler)
  (payload : list (string * json)) (ack : option JsError) :
  handlers w !! h = Some hd ->
  (forall s, _socket hd = Some s -> is_Some (sockets w !! s)) ->
  socket_open w (_socket hd) = false ->
  handleRequest h payload ack w = Exn (EMsg "WebSocket disconnected") w.
Proof.
  intros Hh Hv Hclosed. unfold handleRequest, bind.
  rewrite (connected_ok w h hd Hh Hv), Hclosed. reflexivity.
Qed.

(** C3: [request] on a handler whose socket is [null] or not [OPEN] returns a
    future that is already rejected ("WebSocket disconnected"), and no socket
    of the store changes: nothing is handed to [send]. *)
Theorem request_not_open_rejects_without_sending
  (w : World) (h : nat) (hd : Handler) (method : string) (params : option json)
  (ack : option JsError) :
  handlers w !! h = Some hd ->
  (forall s, _socket hd = Some s -> is_Some (sockets w !! s)) ->
  socket_open w (_socket hd) = false ->
  exists p w',
    request h method params ack w = Ok p w' /\
    futures w !! p = None /\
    futures w' !! p = Some (FRejected (EMsg "WebSocket disconnected")) /\
    sockets w' = sockets w /\
    emitted_by w' h = emitted hd ++ [Request method params] /\
    (pending <$> (client <$> handlers w' !! h))
    = Some (drop_pending (nextId (client hd)) (pending (client hd))).
Proof.
  intros Hh Hv Hclosed.
  unfold request, bind at 1. rewrite (emit_ok w h hd _ Hh).
  set (hd1 := with_emitted _ hd). set (w1 := set_handlers _ w).
  assert (Hh1 : handlers w1 !! h = Some hd1) by (eapply handlers_insert_lookup, Hh).
  unfold bind at 1, get_handler at 1. rewrite Hh1.
  unfold client_send, bind at 1, get_handler at 1. rewrite Hh1.
  unfold bind at 1, new_future.
  set (w2 := set_futures _ w1).
  unfold bind at 1, put_handler.
  set (hd3 := with_client _ hd1). set (w3 := set_handlers _ w2).
  assert (Hh3 : handlers w3 !! h = Some hd3) by (eapply handlers_insert_lookup, Hh1).
  unfold bind at 1, try_catch.
  rewrite (handleRequest_disconnected w3 h hd3); [|exact Hh3|exact Hv|exact Hclosed].
  unfold bind at 1. rewrite (modify_handler_ok w3 h hd3 _ Hh3).
  set (hd4 := with_client _ hd3). set (w4 := set_handlers _ w3).
  assert (Hp : futures w4 !! length (futures w1) = Some FPending)
    by (cbn; now apply list_lookup_middle).
  unfold settle. rewrite Hp. cbn [ret].
  eexists _, _. split; [reflexivity|]. cbn.
  split; [apply lookup_ge_None_2; lia|].
  split; [rewrite list_lookup_insert_eq by (rewrite length_app; cbn; lia); reflexivity|].
  split; [reflexivity|].
  unfold emitted_by; cbn. rewrite !list_insert_insert_eq.
  rewrite list_lookup_insert_eq by (eapply lookup_lt_Some, Hh). cbn.
  split; [reflexivity|].
  f_equal. unfold drop_pending. rewrite filter_app. cbn.
  rewrite decide_False by (intros Hn; now apply Hn).
  now rewrite app_nil_r.
Qed.

Lemma request_not_open_rejects_without_sending_witness :
  exists p w',
    request 0 "Shelly.GetStatus" None None (idle_handler (Some 0%nat) CLOSING)
    = Ok p w' /\
    futures (idle_handler (Some 0%nat) CLOSING) !! p = None /\
    futures w' !! p = Some (FRejected (EMsg "WebSocket disconnected")) /\
    sockets w' = sockets (idle_handler (Some 0%nat) CLOSING) /\
    emitted_by w' 0 = [] ++ [Request "Shelly.GetStatus" None] /\
    (pending <$> (client <$> handlers w' !! 0%nat)) = Some (drop_pending 1 []).
Proof.
  apply (request_not_open_rejects_without_sending
           (idle_handler (Some 0%nat) CLOSING) 0
           (mkHandler (Some 0%nat) (mkOptions "controller" 10) (mkClient 1 []) [])
           "Shelly.GetStatus" None None).
  - reflexivity.
  - intros s [= <-]. eexists; reflexivity.
  - reflexivity.
Defined.

(** *** The outgoing payload *)

Lemma assoc_get_set (k k' : string) (v : json) (t : list (string * json)) :
  assoc_get k (assoc_set k' v t)
  = if String.eqb k k' then Some v else assoc_get k t.
Proof.
  induction t as [|[k0 v0] t IH]; cbn; [reflexivity|].
  destruct (String.eqb_spec k' k0) as [->|Hk'].
  - cbn. destruct (String.eqb k k0); reflexivity.
  - cbn. rewrite IH.
    destruct (String.eqb_spec k k0) as [->|Hk]; [|reflexivity].
    destruct (String.eqb_spec k0 k') as [->|_]; [done|reflexivity].
Qed.

Lemma assoc_get_app (k : string) (a b : list (string * json)) :
  assoc_get k (a ++ b)
  = match assoc_get k a with Some v => Some v | None => assoc_get k b end.
Proof.
  induction a as [|[k0 v0] a IH]; cbn; [reflexivity|].
  destruct (String.eqb k k0); [reflexivity|exact IH].
Qed.

(** In [{ ...target, ...source }] the last assignment of a key in [source]
    wins, and a key that [source] lacks keeps the value of [target]. *)
Lemma assoc_get_spread (k : string) (target source : list (string * json)) :
  assoc_get k (spread target source)
  = match assoc_get k (rev source) with
    | Some v => Some v
    | None => assoc_get k target
    end.
Proof.
  unfold spread. revert target.
  induction source as [|[k0 v0] source IH]; intros target; cbn; [reflexivity|].
  rewrite IH, assoc_get_app, assoc_get_set. cbn.
  destruct (assoc_get k (rev source)); [reflexivity|].
  destruct (String.eqb k k0); reflexivity.
Qed.

Lemma assoc_get_rev_None (k : string) (l : list (string * json)) :
  assoc_get k l = None -> assoc_get k (rev l) = None.
Proof.
  induction l as [|[k0 v0] l IH]; cbn; [done|].
  destruct (String.eqb k k0) eqn:E; [done|]. intros Hl.
  rewrite assoc_get_app, (IH Hl). cbn. now rewrite E.
Qed.

(** [sendRequest] on a handler with a socket hands [{ src: clientId,
    ...payload }] to [send]; for a payload without a [src] of its own the
    [src] of what is sent is the handler's client id. *)
Lemma sendRequest_adds_src (w : World) (h : nat) (hd : Handler) (s : nat)
  (sk : Socket) (payload : list (string * json)) :
  handlers w !! h = Some hd ->
  _socket hd = Some s ->
  sockets w !! s = Some sk ->
  assoc_get "src" payload = None ->
  exists w' data,
    sendRequest h payload None w = Ok tt w' /\
    (sent <$> sockets w' !! s) = Some (sent sk ++ [JObj data]) /\
    assoc_get "src" data = Some (JStr (clientId (h_options hd))).
Proof.
  intros Hh Hsock Hs Hsrc.
  unfold sendRequest, bind at 1, get_handler. rewrite Hh, Hsock.
  unfold ws_send, bind. rewrite (modify_socket_ok w s sk _ Hs). cbn [ret].
  eexists _, _. split; [reflexivity|].
  rewrite (sockets_insert_lookup w s sk _ Hs). cbn.
  split; [reflexivity|].
  rewrite assoc_get_spread, (assoc_get_rev_None _ _ Hsrc). reflexivity.
Qed.

(** A payload that carries a [src] of its own keeps it: the spread comes after
    the client id. *)
Lemma sendRequest_payload_src_wins :
  exists w',
    sendRequest 0 [("src", JStr "someone-else"); ("id", JNum 7)] None
                (idle_handler (Some 0%nat) OPEN) = Ok tt w' /\
    (sent <$> sockets w' !! 0%nat)
    = Some [JObj [("src", JStr "someone-else"); ("id", JNum 7)]].
Proof. eexists. vm_compute. split; reflexivity. Qed.

(** C9: a request made on a handler whose socket is open hands one more text
    to [send]; it is the serialization of an object whose [src] is the
    handler's configured client id and whose [id], [method] and [params] are
    those of the request. *)
Theorem request_payload_carries_clientId
  (w : World) (h : nat) (hd : Handler) (s : nat) (sk : Socket)
  (method : string) (params : option json) (ack : option JsError) :
  handlers w !! h = Some hd ->
  _socket hd = Some s ->
  sockets w !! s = Some sk ->
  readyState sk = OPEN ->
  exists p w' data,
    request h method params ack w = Ok p w' /\
    (sent <$> sockets w' !! s) = Some (sent sk ++ [JObj data]) /\
    assoc_get "src" data = Some (JStr (clientId (h_options hd))) /\
    assoc_get "id" data = Some (JNum (nextId (client hd))) /\
    assoc_get "method" data = Some (JStr method) /\
    assoc_get "params" data = params.
Proof.
  intros Hh Hsock Hs Hopen.
  unfold request, bind at 1. rewrite (emit_ok w h hd _ Hh).
  set (hd1 := with_emitted _ hd). set (w1 := set_handlers _ w).
  assert (Hh1 : handlers w1 !! h = Some hd1) by (eapply handlers_insert_lookup, Hh).
  unfold bind at 1, get_handler at 1. rewrite Hh1.
  unfold client_send, bind at 1, get_handler at 1. rewrite Hh1.
  unfold bind at 1, new_future.
  set (w2 := set_futures _ w1).
  unfold bind at 1, put_handler.
  set (hd3 := with_client _ hd1). set (w3 := set_handlers _ w2).
  assert (Hh3 : handlers w3 !! h = Some hd3) by (eapply handlers_insert_lookup, Hh1).
  assert (Hv : forall s', _socket hd3 = Some s' -> is_Some (sockets w3 !! s')).
  { intros s' Hs'. cbn in Hs'. rewrite Hsock in Hs'. injection Hs' as <-.
    cbn. eauto. }
  assert (Hconn : socket_open w3 (_socket hd3) = true).
  { cbn. rewrite Hsock. cbn. rewrite Hs, Hopen. reflexivity. }
  unfold bind at 1, try_catch, handleRequest, bind at 1.
  rewrite (connected_ok w3 h hd3 Hh3 Hv), Hconn. cbn [negb].
  unfold sendRequest, bind at 1, get_handler at 1. rewrite Hh3.
  cbn [_socket hd3 with_client hd1 with_emitted]. rewrite Hsock.
  unfold ws_send, bind at 1.
  rewrite (modify_socket_ok w3 s sk) by exact Hs.
  set (data := spread _ _).
  assert (Hdata : assoc_get "src" data = Some (JStr (clientId (h_options hd)))
                  /\ assoc_get "id" data = Some (JNum (nextId (client hd)))
                  /\ assoc_get "method" data = Some (JStr method)
                  /\ assoc_get "params" data = params).
  { subst data. destruct params; cbn; repeat split; reflexivity. }
  destruct ack as [e|]; cbn [ret throw bind].
  - unfold bind at 1. rewrite (modify_handler_ok _ h hd3) by exact Hh3.
    unfold settle. cbn [futures set_handlers set_sockets set_futures w3 w2].
    rewrite list_lookup_middle by reflexivity. cbn [ret].
    eexists _, _, data. split; [reflexivity|].
    split; [|exact Hdata]. cbn.
    rewrite list_lookup_insert_eq by (eapply lookup_lt_Some, Hs). reflexivity.
  - eexists _, _, data. split; [reflexivity|].
    split; [|exact Hdata]. cbn.
    rewrite list_lookup_insert_eq by (eapply lookup_lt_Some, Hs). reflexivity.
Qed.

Lemma request_payload_carries_clientId_witness :
  exists p w' data,
    request 0 "Shelly.GetStatus" (Some (JObj [])) None
            (idle_handler (Some 0%nat) OPEN) = Ok p w' /\
    (sent <$> sockets w' !! 0%nat) = Some ([] ++ [JObj data]) /\
    assoc_get "src" data = Some (JStr "controller") /\
    assoc_get "id" data = Some (JNum 1) /\
    assoc_get "method" data = Some (JStr "Shelly.GetStatus") /\
    assoc_get "params" data = Some (JObj []).
Proof.
  apply (request_payload_carries_clientId
           (idle_handler (Some 0%nat) OPEN) 0
           (mkHandler (Some 0%nat) (mkOptions "controller" 10) (mkClient 1 []) [])
           0 (mkSocket OPEN (handler_regs 0) [] [])
           "Shelly.GetStatus" (Some (JObj [])) None);
    reflexivity.
Defined.

(** ** Close reports *)

Lemma sock_off_ok (w : World) (s : nat) (sk : Socket) (ev : SockEvent) (fn : Listener) :
  sockets w !! s = Some sk ->
  sock_off s ev fn w
  = Ok tt (set_sockets (fun l =>
       <[s := with_listeners (remove_last (reg_matches ev fn)) sk]> l) w).
Proof. intros Hs. unfold sock_off. now apply modify_socket_ok. Qed.

(** C6, as the claim has it, fails: the handler on socket 0 has emitted
    nothing and its socket is still [CONNECTING]; the socket closes, and the
    handler emits [disconnect] all the same. *)
Lemma close_before_open_emits_disconnect :
  ~ (emitted_by (idle_handler (Some 0%nat) CONNECTING) 0 = [] ->
     socket_open (idle_handler (Some 0%nat) CONNECTING) (Some 0%nat) = false ->
     forall w', ws_closed 0 1006 "" (idle_handler (Some 0%nat) CONNECTING) = Ok tt w' ->
     forall code reason, ~ In (Disconnect code reason) (emitted_by w' 0)).
Proof.
  intros Hclaim.
  assert (exists w',
             ws_closed 0 1006 "" (idle_handler (Some 0%nat) CONNECTING) = Ok tt w' /\
             emitted_by w' 0 = [Disconnect 1006 ""]) as (w' & Hrun & Hem)
    by (eexists; vm_compute; split; reflexivity).
  apply (Hclaim eq_refl eq_refl w' Hrun 1006 "").
  rewrite Hem. left. reflexivity.
Qed.

(** ** Dispatch of received frames *)

Lemma client_receive_never_throws (w w' : World) (h : nat) (d : json) (e : JsError) :
  client_receive h d w <> Exn e w'.
Proof.
  unfold client_receive, bind at 1, get_handler.
  destruct (handlers w !! h) as [hd|]; [|discriminate].
  destruct (find_pending _ _) as [pr|]; [|discriminate].
  unfold bind, put_handler.
  destruct (get_prop d "error"); unfold settle;
    match goal with |- context [futures ?x !! ?p] => destruct (futures x !! p) as [[]|] end;
    discriminate.
Qed.

(** [handleMessage] on a frame that parses to something other than [null]. *)
Lemma handleMessage_run (w : World) (h : nat) (d : json) :
  d <> JNull ->
  handleMessage h (Parsed d) w
  = if truthy (get_prop d "id") then client_receive h d w
    else if is_str (get_prop d "method") "NotifyStatus"
            || is_str (get_prop d "method") "NotifyFullStatus"
         then emit h (StatusUpdate (get_prop d "params")) w
         else if is_str (get_prop d "method") "NotifyEvent"
              then emit h (Event (get_prop d "params")) w
              else Ok tt w.
Proof.
  intros Hd.
  assert (Hread : forall k, read_prop d k = ret (get_prop d k))
    by (intros k; destruct d; done).
  unfold handleMessage. cbn [JSON_parse]. unfold bind at 1, ret at 1.
  rewrite !Hread. unfold bind at 1, ret at 1.
  destruct (truthy _); [reflexivity|].
  unfold bind at 1, ret at 1.
  destruct (_ || _); [reflexivity|].
  destruct (is_str _ "NotifyEvent"); reflexivity.
Qed.

(** C8, as the code has it: a frame that parses to a JSON value other than
    [null] is handed to the client's [receive] when its [id] is truthy;
    otherwise [NotifyStatus] and [NotifyFullStatus] emit [statusUpdate] with the
    params, [NotifyEvent] emits [event] with the params, and any other frame
    is dropped: the store stays as it is, no [error] is emitted, and the
    dispatch returns. *)
Theorem handleMessage_dispatch (w : World) (h : nat) (hd : Handler) (d : json) :
  handlers w !! h = Some hd ->
  d <> JNull ->
  (truthy (get_prop d "id") = true ->
     handleMessage h (Parsed d) w = client_receive h d w /\
     forall e w', handleMessage h (Parsed d) w <> Exn e w') /\
  (truthy (get_prop d "id") = false ->
     is_str (get_prop d "method") "NotifyStatus"
     || is_str (get_prop d "method") "NotifyFullStatus" = true ->
     exists w', handleMessage h (Parsed d) w = Ok tt w' /\
                emitted_by w' h = emitted hd ++ [StatusUpdate (get_prop d "params")]) /\
  (truthy (get_prop d "id") = false ->
     is_str (get_prop d "method") "NotifyStatus"
     || is_str (get_prop d "method") "NotifyFullStatus" = false ->
     is_str (get_prop d "method") "NotifyEvent" = true ->
     exists w', handleMessage h (Parsed d) w = Ok tt w' /\
                emitted_by w' h = emitted hd ++ [Event (get_prop d "params")]) /\
  (truthy (get_prop d "id") = false ->
     is_str (get_prop d "method") "NotifyStatus"
     || is_str (get_prop d "method") "NotifyFullStatus" = false ->
     is_str (get_prop d "method") "NotifyEvent" = false ->
     handleMessage h (Parsed d) w = Ok tt w).
Proof.
  intros Hh Hd.
  rewrite (handleMessage_run w h d Hd). split; [|split; [|split]].
  - intros ->. split; [reflexivity|].
    intros e w'. apply client_receive_never_throws.
  - intros -> ->. rewrite (emit_ok w h hd _ Hh). eexists. split; [reflexivity|].
    unfold emitted_by. cbn.
    now rewrite list_lookup_insert_eq by (eapply lookup_lt_Some, Hh).
  - intros -> -> ->. rewrite (emit_ok w h hd _ Hh). eexists. split; [reflexivity|].
    unfold emitted_by. cbn.
    now rewrite list_lookup_insert_eq by (eapply lookup_lt_Some, Hh).
  - now intros -> -> ->.
Qed.

Lemma handleMessage_dispatch_witness :
  exists w',
    handleMessage 0 (Parsed (JObj [("method", JStr "NotifyStatus");
                                   ("params", JObj [("ble", JObj [])])]))
                  (idle_handler (Some 0%nat) OPEN) = Ok tt w' /\
    emitted_by w' 0 = [] ++ [StatusUpdate (Some (JObj [("ble", JObj [])]))].
Proof.
  apply (handleMessage_dispatch
           (idle_handler (Some 0%nat) OPEN) 0
           (mkHandler (Some 0%nat) (mkOptions "controller" 10) (mkClient 1 []) [])
           (JObj [("method", JStr "NotifyStatus"); ("params", JObj [("ble", JObj [])])])).
  - reflexivity.
  - discriminate.
  - reflexivity.
  - reflexivity.
Defined.

(** C8, as the claim has it, fails: a frame with a method the handler does not
    know is dropped without an [error] event. *)
Lemma unknown_method_emits_no_error :
  ~ (forall w',
       handleMessage 0 (Parsed (JObj [("method", JStr "NotifyFoo")]))
                     (idle_handler (Some 0%nat) OPEN) = Ok tt w' ->
       exists message, In (Error message) (emitted_by w' 0)).
Proof.
  intros Hclaim.
  destruct (Hclaim (idle_handler (Some 0%nat) OPEN)) as [message Hin].
  - vm_compute. reflexivity.
  - vm_compute in Hin. exact Hin.
Qed.

(** A frame that is not JSON, or is [null], makes [handleMessage] throw. *)
Lemma handleMessage_throws_on_garbled (w : World) (h : nat) (raw : string) :
  handleMessage h (Garbled raw) w = Exn ESyntax w /\
  handleMessage h (Parsed JNull) w = Exn ETypeNull w.
Proof. split; reflexivity. Qed.

(** *** Falsy ids *)

Lemma assoc_get_remove_ne (k k' : string) (fields : list (string * json)) :
  k <> k' -> assoc_get k (assoc_remove k' fields) = assoc_get k fields.
Proof.
  intros Hk. induction fields as [|[k0 v0] fields IH]; cbn; [reflexivity|].
  destruct (String.eqb_spec k' k0) as [<-|Hk0]; cbn.
  - destruct (String.eqb_spec k k') as [->|_]; [done|exact IH].
  - now rewrite IH.
Qed.

Lemma assoc_get_remove_eq (k : string) (fields : list (string * json)) :
  assoc_get k (assoc_remove k fields) = None.
Proof.
  induction fields as [|[k0 v0] fields IH]; cbn; [reflexivity|].
  destruct (String.eqb_spec k k0) as [<-|Hk]; [exact IH|].
  cbn. destruct (String.eqb_spec k k0); [done|exact IH].
Qed.

(** C10: a frame whose [id] is there but falsy is not handed to the client's
    [receive].  It is dispatched exactly as the same frame without the [id]
    would be, and the client's pending requests and every future stay as they
    are, so no pending request is settled by it. *)
Theorem falsy_id_is_not_a_response
  (w : World) (h : nat) (hd : Handler) (fields : list (string * json)) (id : json) :
  handlers w !! h = Some hd ->
  assoc_get "id" fields = Some id ->
  truthy (Some id) = false ->
  exists w',
    handleMessage h (Parsed (JObj fields)) w = Ok tt w' /\
    handleMessage h (Parsed (JObj (assoc_remove "id" fields))) w = Ok tt w' /\
    futures w' = futures w /\
    (client <$> handlers w' !! h) = Some (client hd).
Proof.
  intros Hh Hid Hfalsy.
  rewrite !handleMessage_run by discriminate. cbn [get_prop].
  rewrite Hid, Hfalsy.
  rewrite assoc_get_remove_eq. cbn [truthy].
  rewrite !(assoc_get_remove_ne "method" "id") by discriminate.
  rewrite !(assoc_get_remove_ne "params" "id") by discriminate.
  destruct (_ || _).
  - rewrite (emit_ok w h hd _ Hh). eexists. split; [reflexivity|].
    split; [reflexivity|]. cbn.
    now rewrite list_lookup_insert_eq by (eapply lookup_lt_Some, Hh).
  - destruct (is_str _ "NotifyEvent").
    + rewrite (emit_ok w h hd _ Hh). eexists. split; [reflexivity|].
      split; [reflexivity|]. cbn.
      now rewrite list_lookup_insert_eq by (eapply lookup_lt_Some, Hh).
    + exists w. rewrite Hh. repeat split; reflexivity.
Qed.

Lemma falsy_id_is_not_a_response_witness :
  exists w',
    handleMessage 0 (Parsed (JObj [("id", JNum 0); ("result", JNum 21)])) (awaiting 0)
    = Ok tt w' /\
    handleMessage 0 (Parsed (JObj (assoc_remove "id" [("id", JNum 0); ("result", JNum 21)])))
                  (awaiting 0) = Ok tt w' /\
    futures w' = futures (awaiting 0) /\
    (client <$> handlers w' !! 0%nat) = Some (mkClient (0 + 1) [mkPending 0 0 10000]).
Proof.
  apply (falsy_id_is_not_a_response (awaiting 0) 0
           (mkHandler (Some 0%nat) (mkOptions "controller" 10)
                      (mkClient (0 + 1) [mkPending 0 0 10000]) [])
           [("id", JNum 0); ("result", JNum 21)] (JNum 0));
    reflexivity.
Defined.

(** A request pending under the id 0 is left pending by its response, while the
    same exchange under the id 1 resolves the future. *)
Lemma response_with_id_zero_is_lost :
  (exists w', ws_message 0 (Parsed (JObj [("id", JNum 0); ("result", JNum 21)]))
                         (awaiting 0) = Ok tt w' /\
              futures w' = [FPending]) /\
  (exists w', ws_message 0 (Parsed (JObj [("id", JNum 1); ("result", JNum 21)]))
                         (awaiting 1) = Ok tt w' /\
              futures w' = [FResolved (Some (JNum 21))]).
Proof. split; eexists; vm_compute; split; reflexivity. Qed.

(** ** Incoming connections *)

Lemma reg_matches_same (ev : SockEvent) (fn : Listener) (o : bool) :
  reg_matches ev fn (mkReg ev fn o) = true.
Proof. unfold reg_matches; cbn. now rewrite !bool_decide_eq_true_2. Qed.

Lemma reg_matches_event (ev ev' : SockEvent) (fn fn' : Listener) (o : bool) :
  ev' <> ev -> reg_matches ev fn (mkReg ev' fn' o) = false.
Proof. intros Hev. unfold reg_matches; cbn. now rewrite bool_decide_eq_false_2. Qed.

Lemma modify_socket_at (L : list Socket) (s : nat) (X : Socket) (f : Socket -> Socket)
  H F R O C E :
  (s < length L)%nat ->
  modify_socket s f (mkWorld (<[s := X]> L) H F R O C E)
  = Ok tt (mkWorld (<[s := f X]> L) H F R O C E).
Proof.
  intros Hlen. rewrite (modify_socket_ok _ s X) by (now apply list_lookup_insert_eq).
  unfold set_sockets; cbn. now rewrite list_insert_insert_eq.
Qed.

Lemma get_socket_at (L : list Socket) (s : nat) (X : Socket) H F R O C E :
  (s < length L)%nat ->
  get_socket s (mkWorld (<[s := X]> L) H F R O C E)
  = Ok X (mkWorld (<[s := X]> L) H F R O C E).
Proof.
  intros Hlen. unfold get_socket; cbn. now rewrite list_lookup_insert_eq.
Qed.

Ltac world_norm :=
  unfold set_sockets, set_handlers, set_futures, set_rpcHandlers, set_connections,
    set_serverEmitted;
  cbn [sockets handlers futures rpcHandlers options connections serverEmitted].

Ltac regs_simpl :=
  repeat (cbn [remove_first rev app andb reg_once reg_event reg_fn];
          rewrite ?reg_matches_same;
          rewrite ?reg_matches_event by discriminate).

(** [removeListeners] takes whatever is left of the three closures off a
    socket that carries nothing else. *)
Lemma removeListeners_at (L : list Socket) (s conn : nat) (X : Socket)
  H F R O C E :
  (s < length L)%nat ->
  listeners X = [mkReg EvClose (srvCloseHandler conn s) true;
                 mkReg EvError (srvErrorHandler conn s) true]
  \/ listeners X = [mkReg EvMessage (srvMessageHandler conn s) true;
                    mkReg EvError (srvErrorHandler conn s) true]
  \/ listeners X = [mkReg EvMessage (srvMessageHandler conn s) true;
                    mkReg EvClose (srvCloseHandler conn s) true] ->
  removeListeners conn s (mkWorld (<[s := X]> L) H F R O C E)
  = Ok tt (mkWorld (<[s := with_listeners (fun _ => []) X]> L) H F R O C E).
Proof.
  intros Hlen Hleft.
  unfold removeListeners, sock_off, bind.
  repeat (rewrite modify_socket_at by exact Hlen; cbv beta iota).
  do 3 f_equal. destruct X as [rs ls snt cc].
  cbn [readyState listeners sent closeCalls] in *.
  unfold with_listeners, remove_last; cbn [readyState listeners sent closeCalls].
  f_equal.
  destruct Hleft as [->|[->| ->]]; regs_simpl; reflexivity.
Qed.

Lemma handleConnection_run (w : World) (s : nat) (sk : Socket) :
  sockets w !! s = Some sk ->
  handleConnection s w
  = Ok tt (mkWorld
       (<[s := with_listeners (fun l => l ++ srv_regs (connections w) s) sk]> (sockets w))
       (handlers w) (futures w) (rpcHandlers w) (options w)
       (S (connections w)) (serverEmitted w ++ [SConnection s])).
Proof.
  intros Hs. assert (Hlen := lookup_lt_Some _ _ _ Hs).
  unfold handleConnection, bind at 1, server_emit.
  destruct w as [L H F R O C E]. cbn in *.
  rewrite <- (list_insert_id L s sk Hs) at 1.
  unfold sock_once, bind. world_norm.
  repeat (rewrite modify_socket_at by exact Hlen; cbv beta iota).
  do 3 f_equal. unfold with_listeners, srv_regs; cbn.
  now rewrite <- !app_assoc.
Qed.

Lemma srv_messageHandler_fails
  (socket_emit : nat -> SockEvent -> EventArg -> M unit)
  (conn s : nat) (data : Frame) (w : World) :
  frame_src data = None ->
  srv_messageHandler socket_emit conn s data w
  = (server_emit (SError (first_frame_error data)) ;;; removeListeners conn s) w.
Proof.
  intros Hsrc.
  destruct data as [raw|d]; [reflexivity|].
  destruct d as [|b|n|str|items|fields]; try reflexivity.
  cbn [frame_src get_prop] in Hsrc.
  cbv [srv_messageHandler try_catch bind ret throw JSON_parse read_prop get_prop
       first_frame_error].
  destruct (assoc_get "src" fields) as [[|b|n|str|items|fs]|]; try reflexivity.
  discriminate.
Qed.

Lemma emit_at_S (depth s : nat) (ev : SockEvent) (arg : EventArg) :
  emit_at (S depth) s ev arg
  = (sk <- get_socket s ;;
     match unhandled ev (registered ev sk) arg with
     | Some e => throw e
     | None => run_listeners (call_listener (emit_at depth)) s (registered ev sk) arg
     end).
Proof. reflexivity. Qed.

Ltac run_socket Hlen :=
  repeat first
    [ rewrite modify_socket_at by exact Hlen
    | rewrite get_socket_at by exact Hlen
    | rewrite removeListeners_at by (first [exact Hlen | (cbn; auto)]) ];
  cbv beta iota.

(** C7, as the code has it: a connection on which nothing is registered yet is
    taken by [handleConnection]; when its first frame is not JSON or has no
    string [src], or when it closes or errors before a frame, the server emits
    one [error] event and takes its three closures off the socket.  No handler
    is made and the registry stays as it is.  The socket itself is left alone:
    its [readyState] is what the ws package made it and [close()] is not
    called on it. *)
Theorem failed_first_contact_is_reported_not_closed
  (w : World) (s : nat) (sk : Socket) :
  sockets w !! s = Some sk ->
  listeners sk = [] ->
  exists w1,
    handleConnection s w = Ok tt w1 /\
    (forall data, frame_src data = None ->
       ws_message s data w1
       = Ok tt (abandoned w s (first_frame_error data) (sockets w))) /\
    (forall code reason,
       ws_closed s code reason w1
       = Ok tt (abandoned w s (EClosedUnexpectedly code)
                          (<[s := with_readyState CLOSED sk]> (sockets w)))) /\
    (forall message,
       ws_error s message w1
       = Ok tt (abandoned w s (EIncoming message) (sockets w))).
Proof.
  intros Hs Hfresh. assert (Hlen := lookup_lt_Some _ _ _ Hs).
  eexists. split; [apply (handleConnection_run w s sk Hs)|].
  destruct w as [L H F R O C E]. cbn [sockets handlers futures rpcHandlers options
                                      connections serverEmitted] in *.
  destruct sk as [rs ls snt cc]. cbn in Hfresh. subst ls.
  unfold abandoned, with_listeners, with_readyState. cbn [readyState listeners sent closeCalls
    sockets handlers futures rpcHandlers options connections serverEmitted app].
  split; [|split].
  - intros data Hsrc. unfold ws_message, socket_emit, bind at 1.
    run_socket Hlen. cbn [listeners length srv_regs app]. rewrite emit_at_S.
    unfold bind at 1. run_socket Hlen.
    change (registered EvMessage _) with [mkReg EvMessage (srvMessageHandler C s) true].
    cbn [unhandled run_listeners unregister_once reg_once reg_fn reg_event].
    unfold bind at 1. run_socket Hlen.
    unfold with_listeners, with_readyState, srv_regs.
    cbn [readyState listeners sent closeCalls]. regs_simpl.
    unfold bind at 1. cbn [call_listener].
    rewrite (srv_messageHandler_fails _ C s data _ Hsrc).
    unfold bind at 1, server_emit. world_norm. run_socket Hlen.
    unfold with_listeners, ret. cbn [readyState listeners sent closeCalls].
    rewrite (list_insert_id L s _ Hs), <- app_assoc. reflexivity.
  - intros code reason. unfold ws_closed, bind at 1.
    run_socket Hlen. unfold socket_emit, bind at 1. run_socket Hlen.
    cbn [listeners length srv_regs app with_readyState]. rewrite emit_at_S.
    unfold bind at 1. run_socket Hlen.
    change (registered EvClose _) with [mkReg EvClose (srvCloseHandler C s) true].
    cbn [unhandled run_listeners unregister_once reg_once reg_fn reg_event].
    unfold bind at 1. run_socket Hlen.
    unfold with_listeners, with_readyState, srv_regs.
    cbn [readyState listeners sent closeCalls]. regs_simpl.
    unfold bind at 1. cbn [call_listener].
    unfold srv_closeHandler, bind at 1, server_emit. world_norm. run_socket Hlen.
    unfold with_listeners, ret. cbn [readyState listeners sent closeCalls].
    rewrite <- app_assoc. reflexivity.
  - intros message. unfold ws_error, socket_emit, bind at 1.
    run_socket Hlen. cbn [listeners length srv_regs app]. rewrite emit_at_S.
    unfold bind at 1. run_socket Hlen.
    change (registered EvError _) with [mkReg EvError (srvErrorHandler C s) true].
    cbn [unhandled run_listeners unregister_once reg_once reg_fn reg_event].
    unfold bind at 1. run_socket Hlen.
    unfold with_listeners, with_readyState, srv_regs.
    cbn [readyState listeners sent closeCalls]. regs_simpl.
    unfold bind at 1. cbn [call_listener].
    unfold srv_errorHandler, bind at 1, server_emit. world_norm. run_socket Hlen.
    unfold with_listeners, ret. cbn [readyState listeners sent closeCalls].
    rewrite (list_insert_id L s _ Hs), <- app_assoc. reflexivity.
Qed.

Lemma failed_first_contact_is_reported_not_closed_witness :
  exists w1,
    handleConnection 0 (one_connection OPEN) = Ok tt w1 /\
    (forall data, frame_src data = None ->
       ws_message 0 data w1
       = Ok tt (abandoned (one_connection OPEN) 0 (first_frame_error data)
                          (sockets (one_connection OPEN)))) /\
    (forall code reason,
       ws_closed 0 code reason w1
       = Ok tt (abandoned (one_connection OPEN) 0 (EClosedUnexpectedly code)
                  (<[0%nat := with_readyState CLOSED (mkSocket OPEN [] [] [])]>
                     (sockets (one_connection OPEN))))) /\
    (forall message,
       ws_error 0 message w1
       = Ok tt (abandoned (one_connection OPEN) 0 (EIncoming message)
                          (sockets (one_connection OPEN)))).
Proof.
  apply (failed_first_contact_is_reported_not_closed
           (one_connection OPEN) 0 (mkSocket OPEN [] [] [])); reflexivity.
Defined.

(** C7, as the claim has it, fails: the first frame of the open socket 0 is not
    JSON; after the server has dealt with it the socket is still [OPEN] and
    [close()] was never called on it. *)
Lemma bad_first_frame_leaves_socket_open :
  ~ (forall w1 w2,
       handleConnection 0 (one_connection OPEN) = Ok tt w1 ->
       ws_message 0 (Garbled "not json") w1 = Ok tt w2 ->
       exists sk, sockets w2 !! 0%nat = Some sk /\
                  (readyState sk <> OPEN \/ closeCalls sk <> [])).
Proof.
  intros Hclaim.
  assert (exists w1 w2,
             handleConnection 0 (one_connection OPEN) = Ok tt w1 /\
             ws_message 0 (Garbled "not json") w1 = Ok tt w2 /\
             sockets w2 !! 0%nat = Some (mkSocket OPEN [] [] []) /\
             serverEmitted w2 = [SConnection 0; SError ESyntax])
    as (w1 & w2 & H1 & H2 & Hsk & _).
  { eexists _, _. split; [vm_compute; reflexivity|].
    split; [vm_compute; reflexivity|]. split; reflexivity. }
  destruct (Hclaim w1 w2 H1 H2) as (sk & Hsk' & Hclosed).
  rewrite Hsk in Hsk'. injection Hsk' as <-.
  destruct Hclosed as [Hr|Hc]; [apply Hr|apply Hc]; reflexivity.
Qed.

(** ** Teardown *)

(** C4: in this run [destroy] does reject the pending request with
    "Connection closed", asks socket 1 to close with code 1000, and resolves
    once the close is reported; the handler's four registrations are then
    off socket 1 but still on socket 0, from which the setter had never taken
    them. *)
Theorem destroy_leaves_listeners_on_replaced_socket :
  exists destroyed w sk0 sk1 hd,
    reconnect_then_destroy (new_server (mkOptions "controller" 10)) = Ok destroyed w /\
    futures w !! destroyed = Some (FResolved None) /\
    futures w !! 0%nat = Some (FRejected (EMsg "Connection closed")) /\
    handlers w !! 0%nat = Some hd /\ pending (client hd) = [] /\
    sockets w !! 1%nat = Some sk1 /\
    closeCalls sk1 = [(1000, "User request")] /\ listeners sk1 = [] /\
    sockets w !! 0%nat = Some sk0 /\
    readyState sk0 = OPEN /\ closeCalls sk0 = [] /\
    listeners sk0 = handler_regs 0 /\ bound_to 0 sk0 = true.
Proof.
  eexists _, _, _, _, _. vm_compute. repeat split; reflexivity.
Qed.

(** With one socket and no replacement the close report does unbind: after
    [destroy] and the socket's ['close'] the promise is resolved and nothing of
    the handler is left on the socket. *)
Lemma destroy_single_socket_unbinds :
  exists destroyed w1 w2 sk,
    destroy 0 (idle_handler (Some 0%nat) OPEN) = Ok destroyed w1 /\
    futures w1 !! destroyed = Some FPending /\
    ws_closed 0 1000 "User request" w1 = Ok tt w2 /\
    futures w2 !! destroyed = Some (FResolved None) /\
    sockets w2 !! 0%nat = Some sk /\
    closeCalls sk = [(1000, "User request")] /\ listeners sk = [] /\
    emitted_by w2 0 = [Disconnect 1000 "User request"].
Proof.
  eexists _, _, _, _. vm_compute. repeat split; reflexivity.
Qed.

(** A handler made on a socket that is already closed: [destroy] resolves at
    once, and the registrations stay on the socket. *)
Lemma destroy_on_closed_socket_keeps_listeners :
  exists destroyed w sk,
    destroy 0 (idle_handler (Some 0%nat) CLOSED) = Ok destroyed w /\
    futures w !! destroyed = Some (FResolved None) /\
    sockets w !! 0%nat = Some sk /\
    closeCalls sk = [] /\ bound_to 0 sk = true.
Proof.
  eexists _, _, _. vm_compute. repeat split; reflexivity.
Qed.

(** *** What [destroy] does on every handler *)

Lemma settle_ok (w : World) (p : nat) (st : FutureState) :
  is_Some (futures w !! p) ->
  exists w',
    settle p st w = Ok tt w' /\
    sockets w' = sockets w /\ handlers w' = handlers w /\
    length (futures w') = length (futures w) /\
    (futures w !! p = Some FPending -> futures w' = <[p := st]> (futures w)) /\
    (futures w !! p <> Some FPending -> futures w' = futures w).
Proof.
  intros [cur Hp]. unfold settle. rewrite Hp.
  destruct cur; eexists; (split; [reflexivity|]); cbn;
    rewrite ?length_insert; repeat split; congruence.
Qed.

Lemma reject_each_ok (reason : string) (l : list PendingRequest) (w : World) :
  (forall pr, pr ∈ l -> is_Some (futures w !! resultFuture pr)) ->
  exists w',
    reject_each reason l w = Ok tt w' /\
    sockets w' = sockets w /\ handlers w' = handlers w /\
    length (futures w') = length (futures w) /\
    (forall pr, pr ∈ l -> futures w !! resultFuture pr = Some FPending ->
       futures w' !! resultFuture pr = Some (FRejected (EMsg reason))) /\
    (forall p st, futures w !! p = Some st ->
       st <> FPending \/ (forall pr, pr ∈ l -> resultFuture pr <> p) ->
       futures w' !! p = Some st).
Proof.
  revert w. induction l as [|pr0 rest IH]; intros w Hvalid.
  - exists w. cbn. repeat split; try done. intros pr Hin. inversion Hin.
  - cbn [reject_each]. unfold bind.
    destruct (settle_ok w (resultFuture pr0) (FRejected (EMsg reason)))
      as (w1 & Hrun1 & Hs1 & Hh1 & Hlen1 & Hset & Hkeep).
    { apply Hvalid. left. }
    rewrite Hrun1.
    destruct (IH w1) as (w' & Hrun & Hs & Hh & Hlen & Hrej & Hsame).
    { intros pr Hin. apply lookup_lt_is_Some. rewrite Hlen1.
      apply lookup_lt_is_Some, Hvalid. now right. }
    exists w'. split; [exact Hrun|].
    split; [congruence|]. split; [congruence|]. split; [congruence|].
    assert (Hstep : forall p st, futures w !! p = Some st ->
              st <> FPending \/ p <> resultFuture pr0 -> futures w1 !! p = Some st).
    { intros p st Hp Hor.
      assert (futures w !! resultFuture pr0 = Some FPending
              \/ futures w !! resultFuture pr0 <> Some FPending) as [Hpend|Hnot]
        by (destruct (futures w !! resultFuture pr0) as [[]|];
            first [now left | now right]).
      - rewrite (Hset Hpend). rewrite list_lookup_insert_ne; [exact Hp|].
        intros <-. destruct Hor as [Hst|Hne]; [|done]. congruence.
      - now rewrite (Hkeep Hnot). }
    split.
    + intros pr Hin Hpend.
      destruct (decide (resultFuture pr = resultFuture pr0)) as [Heq|Hne].
      * apply (Hsame _ (FRejected (EMsg reason))); [|left; discriminate].
        rewrite Heq in Hpend |- *. rewrite (Hset Hpend).
        apply list_lookup_insert_eq. now apply lookup_lt_Some in Hpend.
      * apply elem_of_cons in Hin as [->|Hin]; [done|].
        apply Hrej; [exact Hin|]. apply Hstep; [exact Hpend|now right].
    + intros p st Hp Hor. apply Hsame.
      * apply Hstep; [exact Hp|].
        destruct Hor as [Hst|Hnone]; [now left|right].
        intros ->. apply (Hnone pr0); [left|reflexivity].
      * destruct Hor as [Hst|Hnone]; [now left|right].
        intros pr Hin. apply Hnone. now right.
Qed.

(** [destroy] on any handler: the pending set is emptied and every future
    that was pending in it is rejected with "Connection closed"; then, by the
    state of the socket, the returned promise is resolved at once (no socket,
    or a closed one), or [close(1000, 'User request')] is called and the
    promise waits for the socket's ['close'] (open or connecting), or the
    promise only waits (closing).  In no case does [destroy] itself take a
    registration off a socket. *)
Lemma destroy_orderly (w : World) (h : nat) (hd : Handler) :
  handlers w !! h = Some hd ->
  (forall s, _socket hd = Some s -> is_Some (sockets w !! s)) ->
  (forall pr, pr ∈ pending (client hd) -> is_Some (futures w !! resultFuture pr)) ->
  let p := length (futures w) in
  exists w',
    destroy h w = Ok p w' /\
    (pending <$> (client <$> handlers w' !! h)) = Some [] /\
    (forall pr, pr ∈ pending (client hd) ->
       futures w !! resultFuture pr = Some FPending ->
       futures w' !! resultFuture pr = Some (FRejected (EMsg "Connection closed"))) /\
    match _socket hd with
    | None => sockets w' = sockets w /\ futures w' !! p = Some (FResolved None)
    | Some s =>
        forall sk, sockets w !! s = Some sk ->
          match readyState sk with
          | OPEN | CONNECTING =>
              sockets w'
              = <[s := mkSocket CLOSING
                         (listeners sk ++ [mkReg EvClose (resolveAwait p) true])
                         (sent sk) (closeCalls sk ++ [(1000, "User request")])]>
                  (sockets w)
              /\ futures w' !! p = Some FPending
          | CLOSING =>
              sockets w'
              = <[s := with_listeners
                         (fun l => l ++ [mkReg EvClose (resolveAwait p) true]) sk]>
                  (sockets w)
              /\ futures w' !! p = Some FPending
          | CLOSED => sockets w' = sockets w /\ futures w' !! p = Some (FResolved None)
          end
    end.
Proof.
  intros Hh Hv Hfut p.
  unfold destroy, bind at 1, client_rejectAll, bind at 1, get_handler. rewrite Hh.
  unfold bind at 1, put_handler.
  set (hd1 := with_client _ hd). set (w1 := set_handlers _ w).
  destruct (reject_each_ok "Connection closed" (pending (client hd)) w1 Hfut)
    as (w2 & Hrun2 & Hs2 & Hh2 & Hlen2 & Hrej & _).
  rewrite Hrun2.
  assert (Hh2' : handlers w2 !! h = Some hd1)
    by (rewrite Hh2; eapply handlers_insert_lookup, Hh).
  assert (Hpeq : length (futures w2) = p) by (rewrite Hlen2; reflexivity).
  unfold disconnect, bind at 1, new_future. rewrite Hpeq.
  set (w3 := set_futures _ w2).
  assert (Hp : futures w3 !! p = Some FPending)
    by (cbn; apply list_lookup_middle; symmetry; exact Hpeq).
  assert (Hkept : forall pr, pr ∈ pending (client hd) ->
            futures w !! resultFuture pr = Some FPending ->
            futures w3 !! resultFuture pr = Some (FRejected (EMsg "Connection closed"))).
  { intros pr Hin Hpend. cbn. apply lookup_app_l_Some. now apply Hrej. }
  assert (Hother : forall pr, pr ∈ pending (client hd) -> resultFuture pr <> p).
  { intros pr Hin Heq. destruct (Hfut pr Hin) as [st Hst].
    apply lookup_lt_Some in Hst. cbn in Hst. subst p. lia. }
  unfold bind at 1, get_handler at 1.
  replace (handlers w3 !! h) with (Some hd1) by (symmetry; exact Hh2').
  change (_socket hd1) with (_socket hd).
  destruct (_socket hd) as [s|] eqn:Hsock.
  - destruct (Hv s eq_refl) as [sk Hs].
    assert (Hs3 : sockets w3 !! s = Some sk) by (cbn; rewrite Hs2; exact Hs).
    unfold bind at 1. unfold bind at 1, get_socket at 1. rewrite Hs3.
    assert (Hcase :
      match readyState sk with
      | OPEN | CONNECTING =>
          exists w',
            (ws_close s 1000 "User request" ;;; awaitDisconnect h p) w3 = Ok tt w' /\
            handlers w' = handlers w3 /\ futures w' = futures w3 /\
            sockets w'
            = <[s := mkSocket CLOSING
                       (listeners sk ++ [mkReg EvClose (resolveAwait p) true])
                       (sent sk) (closeCalls sk ++ [(1000, "User request")])]>
                (sockets w)
      | CLOSING =>
          exists w',
            awaitDisconnect h p w3 = Ok tt w' /\
            handlers w' = handlers w3 /\ futures w' = futures w3 /\
            sockets w'
            = <[s := with_listeners
                       (fun l => l ++ [mkReg EvClose (resolveAwait p) true]) sk]>
                (sockets w)
      | CLOSED => True
      end).
    { destruct (readyState sk) eqn:Hrs; try exact I.
      1, 2: unfold bind at 1, ws_close; rewrite (modify_socket_ok w3 s sk _ Hs3);
        rewrite Hrs; set (w4 := set_sockets _ w3);
        assert (Hs4 : sockets w4 !! s
                      = Some (mkSocket CLOSING (listeners sk) (sent sk)
                                       (closeCalls sk ++ [(1000, "User request")])))
          by (subst w4; eapply sockets_insert_lookup, Hs3);
        unfold awaitDisconnect, bind at 1, get_handler at 1;
        replace (handlers w4 !! h) with (Some hd1) by (symmetry; exact Hh2');
        change (_socket hd1) with (_socket hd); rewrite Hsock;
        unfold bind at 1, get_socket at 1; rewrite Hs4; cbn [readyState];
        unfold sock_once; rewrite (modify_socket_ok w4 s _ _ Hs4);
        eexists; (split; [reflexivity|]); subst w4; cbn;
        rewrite list_insert_insert_eq, Hs2; repeat split; reflexivity.
      unfold awaitDisconnect, bind at 1, get_handler at 1.
      replace (handlers w3 !! h) with (Some hd1) by (symmetry; exact Hh2').
      change (_socket hd1) with (_socket hd). rewrite Hsock.
      unfold bind at 1, get_socket at 1. rewrite Hs3, Hrs.
      unfold sock_once. rewrite (modify_socket_ok w3 s sk _ Hs3).
      eexists. split; [reflexivity|]. cbn.
      rewrite Hs2. repeat split; reflexivity. }
    destruct (readyState sk) eqn:Hrs.
    + destruct Hcase as (w' & Hrun & Hh' & Hf' & Hs').
      rewrite Hrun. exists w'. split; [reflexivity|].
      rewrite Hh', Hf'. change (handlers w3) with (handlers w2).
      split; [now rewrite Hh2'|]. split; [exact Hkept|].
      intros sk' Hsk'. rewrite Hs in Hsk'. injection Hsk' as <-. rewrite Hrs.
      split; [exact Hs'|exact Hp].
    + destruct Hcase as (w' & Hrun & Hh' & Hf' & Hs').
      rewrite Hrun. exists w'. split; [reflexivity|].
      rewrite Hh', Hf'. change (handlers w3) with (handlers w2).
      split; [now rewrite Hh2'|]. split; [exact Hkept|].
      intros sk' Hsk'. rewrite Hs in Hsk'. injection Hsk' as <-. rewrite Hrs.
      split; [exact Hs'|exact Hp].
    + destruct Hcase as (w' & Hrun & Hh' & Hf' & Hs').
      rewrite Hrun. exists w'. split; [reflexivity|].
      rewrite Hh', Hf'. change (handlers w3) with (handlers w2).
      split; [now rewrite Hh2'|]. split; [exact Hkept|].
      intros sk' Hsk'. rewrite Hs in Hsk'. injection Hsk' as <-. rewrite Hrs.
      split; [exact Hs'|exact Hp].
    + unfold settle. rewrite Hp. cbn [ret].
      eexists. split; [reflexivity|]. cbn.
      split; [now rewrite Hh2'|]. split.
      * intros pr Hin Hpend. rewrite list_lookup_insert_ne by (intros Heq; eapply Hother; eauto).
        now apply Hkept.
      * intros sk' Hsk'. rewrite Hs in Hsk'. injection Hsk' as <-. rewrite Hrs.
        split; [exact Hs2|].
        apply list_lookup_insert_eq. rewrite length_app. cbn. subst p. lia.
  - unfold bind at 1, settle. rewrite Hp. cbn [ret].
    eexists. split; [reflexivity|]. cbn.
    split; [now rewrite Hh2'|]. split.
    + intros pr Hin Hpend. rewrite list_lookup_insert_ne by (intros Heq; eapply Hother; eauto).
      now apply Hkept.
    + split; [exact Hs2|].
      apply list_lookup_insert_eq. rewrite length_app. cbn. subst p. lia.
Qed.

(** ** What no operation undoes *)

Lemma grows_refl (w : World) : grows w w.
Proof.
  repeat split; try done.
  - intros h hd Hh. exists hd. repeat split; done.
  - intros p st Hp. exists st. split; done.
Qed.

Lemma grows_trans (a b c : World) : grows a b -> grows b c -> grows a c.
Proof.
  intros (Hr1 & Hh1 & Hf1 & He1 & Ho1) (Hr2 & Hh2 & Hf2 & He2 & Ho2).
  split; [etrans; eassumption|]. split; [|split; [|split]].
  - intros h hd Hh. destruct (Hh1 h hd Hh) as (hd1 & Hb & Hopt1 & Hpre1).
    destruct (Hh2 h hd1 Hb) as (hd2 & Hc & Hopt2 & Hpre2).
    exists hd2. split; [exact Hc|]. split; [congruence|]. etrans; eassumption.
  - intros p st Hp. destruct (Hf1 p st Hp) as (st1 & Hb & Hsame1).
    destruct (Hf2 p st1 Hb) as (st2 & Hc & Hsame2).
    exists st2. split; [exact Hc|]. intros Hst.
    rewrite <- (Hsame1 Hst) in Hst |- *. now apply Hsame2.
  - etrans; eassumption.
  - congruence.
Qed.

Lemma calm_refl (w : World) : calm w w.
Proof. split; [reflexivity|apply grows_refl]. Qed.

Lemma calm_trans (a b c : World) : calm a b -> calm b c -> calm a c.
Proof.
  intros [Hq1 Hg1] [Hq2 Hg2]. split; [|eapply grows_trans; eassumption].
  unfold quiet in *. congruence.
Qed.

Section Keeping.
Variable R : World -> World -> Prop.
Hypothesis R_refl : forall w, R w w.
Hypothesis R_trans : forall a b c, R a b -> R b c -> R a c.

Lemma keeps_ret {A} (a : A) : keeps R (ret a).
Proof. intros w. apply R_refl. Qed.

Lemma keeps_throw {A} (e : JsError) : keeps R (@throw A e).
Proof. intros w. apply R_refl. Qed.

Lemma keeps_stuck {A} : keeps R (@stuck A).
Proof. intros w. exact I. Qed.

Lemma keeps_bind {A B} (m : M A) (k : A -> M B) :
  keeps R m -> (forall a, keeps R (k a)) -> keeps R (bind m k).
Proof.
  intros Hm Hk w. unfold keeps_at, bind. specialize (Hm w). unfold keeps_at in Hm.
  destruct (m w) as [a w1|e w1|]; [|exact Hm|exact I].
  specialize (Hk a w1). unfold keeps_at in Hk.
  destruct (k a w1) as [b w2|e w2|]; [| |exact I]; eapply R_trans; eassumption.
Qed.

Lemma keeps_try_catch {A} (m : M A) (handler : JsError -> M A) :
  keeps R m -> (forall e, keeps R (handler e)) -> keeps R (try_catch m handler).
Proof.
  intros Hm Hk w. unfold keeps_at, try_catch. specialize (Hm w). unfold keeps_at in Hm.
  destruct (m w) as [a w1|e w1|]; [exact Hm| |exact I].
  specialize (Hk e w1). unfold keeps_at in Hk.
  destruct (handler e w1) as [b w2|e' w2|]; [| |exact I]; eapply R_trans; eassumption.
Qed.

(** A computation that first reads the store. *)
Lemma keeps_read {A} (f : World -> M A) :
  (forall w0, keeps_at R (f w0) w0) -> keeps R (fun w => f w w).
Proof. intros Hf w. apply Hf. Qed.

Lemma keeps_get_handler (h : nat) : keeps R (get_handler h).
Proof. intros w. unfold keeps_at, get_handler. destruct (handlers w !! h); auto. Qed.

Lemma keeps_get_socket (s : nat) : keeps R (get_socket s).
Proof. intros w. unfold keeps_at, get_socket. destruct (sockets w !! s); auto. Qed.

(** After [get_handler] the continuation may rely on what was read. *)
Lemma keeps_with_handler {A} (h : nat) (k : Handler -> M A) (w : World) :
  (forall hd, handlers w !! h = Some hd -> keeps_at R (k hd) w) ->
  keeps_at R (bind (get_handler h) k) w.
Proof.
  intros Hk. unfold keeps_at, bind, get_handler.
  destruct (handlers w !! h) as [hd|] eqn:Hh; [|exact I]. now apply Hk.
Qed.

Lemma keeps_at_bind {A B} (m : M A) (k : A -> M B) (w : World) :
  keeps_at R m w ->
  (forall a w', m w = Ok a w' -> keeps_at R (k a) w') ->
  keeps_at R (bind m k) w.
Proof.
  intros Hm Hk. unfold keeps_at, bind in *.
  destruct (m w) as [a w1|e w1|]; [|exact Hm|exact I].
  specialize (Hk a w1 eq_refl).
  destruct (k a w1) as [b w2|e w2|]; [| |exact I]; eapply R_trans; eassumption.
Qed.
End Keeping.

Lemma grows_same (w w' : World) :
  rpcHandlers w' = rpcHandlers w -> handlers w' = handlers w ->
  futures w' = futures w -> serverEmitted w' = serverEmitted w ->
  options w' = options w -> grows w w'.
Proof.
  intros Hr Hh Hf He Ho. unfold grows. rewrite Hr, Hh, Hf, He, Ho.
  apply grows_refl.
Qed.

Lemma quiet_insert (w : World) (s : nat) (sk sk' : Socket) :
  sockets w !! s = Some sk -> vitals sk' = vitals sk ->
  quiet w (set_sockets (fun l => <[s := sk']> l) w).
Proof.
  intros Hs Hv. unfold quiet; cbn.
  rewrite list_fmap_insert, Hv. apply list_insert_id.
  now rewrite list_lookup_fmap, Hs.
Qed.

Lemma calm_modify_socket (s : nat) (f : Socket -> Socket) :
  (forall sk, vitals (f sk) = vitals sk) -> keeps calm (modify_socket s f).
Proof.
  intros Hf w. unfold keeps_at, modify_socket, bind, get_socket.
  destruct (sockets w !! s) as [sk|] eqn:Hs; [|exact I]. cbn.
  split; [now apply (quiet_insert w s sk)|now apply grows_same].
Qed.

Lemma grows_put_handler (w : World) (h : nat) (hd hd' : Handler) :
  handlers w !! h = Some hd ->
  h_options hd' = h_options hd ->
  emitted hd `prefix_of` emitted hd' ->
  calm w (set_handlers (fun l => <[h := hd']> l) w).
Proof.
  intros Hh Hopt Hpre. split; [reflexivity|].
  split; [done|]. split; [|split; [|split]]; cbn; try done.
  - intros h0 hd0 Hh0. destruct (decide (h0 = h)) as [->|Hne].
    + exists hd'. rewrite list_lookup_insert_eq by (eapply lookup_lt_Some, Hh).
      rewrite Hh in Hh0. injection Hh0 as <-. done.
    + exists hd0. rewrite list_lookup_insert_ne by done. done.
  - intros p st Hp. exists st. done.
Qed.

Lemma calm_modify_handler (h : nat) (f : Handler -> Handler) :
  (forall hd, h_options (f hd) = h_options hd /\ emitted hd `prefix_of` emitted (f hd)) ->
  keeps calm (modify_handler h f).
Proof.
  intros Hf w. unfold keeps_at, modify_handler, bind, get_handler.
  destruct (handlers w !! h) as [hd|] eqn:Hh; [|exact I]. cbn.
  destruct (Hf hd). now apply (grows_put_handler w h hd _ Hh).
Qed.

Lemma calm_emit (h : nat) (e : HandlerEvent) : keeps calm (emit h e).
Proof.
  apply calm_modify_handler. intros hd. split; [reflexivity|].
  cbn. now apply prefix_app_r.
Qed.

Lemma calm_server_emit (e : ServerEvent) : keeps calm (server_emit e).
Proof.
  intros w. unfold keeps_at, server_emit. split; [reflexivity|].
  split; [done|]. split; [|split; [|split]]; cbn; try done.
  - intros h hd Hh. exists hd. done.
  - intros p st Hp. exists st. done.
  - now apply prefix_app_r.
Qed.

Lemma calm_settle (p : nat) (st : FutureState) : keeps calm (settle p st).
Proof.
  intros w. unfold keeps_at, settle.
  destruct (futures w !! p) as [cur|] eqn:Hp; [|exact I].
  destruct cur; try apply calm_refl.
  split; [reflexivity|]. split; [done|]. split; [|split; [|split]]; cbn; try done.
  - intros h hd Hh. exists hd. done.
  - intros q st0 Hq. destruct (decide (q = p)) as [->|Hne].
    + exists st. rewrite list_lookup_insert_eq by (eapply lookup_lt_Some, Hp).
      split; [done|]. congruence.
    + exists st0. rewrite list_lookup_insert_ne by done. done.
Qed.

Lemma calm_new_future : keeps calm new_future.
Proof.
  intros w. unfold keeps_at, new_future.
  split; [reflexivity|]. split; [done|]. split; [|split; [|split]]; cbn; try done.
  - intros h hd Hh. exists hd. done.
  - intros p st Hp. exists st. split; [|done]. now apply lookup_app_l_Some.
Qed.

Lemma calm_registry_set (w : World) (deviceId : string) (h : nat) :
  rpcHandlers w !! deviceId = None ->
  calm w (set_rpcHandlers (fun m => <[deviceId := h]> m) w).
Proof.
  intros Hnone. split; [reflexivity|].
  split; [now apply insert_subseteq|]. split; [|split; [|split]]; cbn; try done.
  - intros h0 hd Hh. exists hd. done.
  - intros p st Hp. exists st. done.
Qed.

Lemma calm_handlers_app (w : World) (hd : Handler) :
  calm w (set_handlers (fun l => l ++ [hd]) w).
Proof.
  split; [reflexivity|].
  split; [done|]. split; [|split; [|split]]; cbn; try done.
  - intros h0 hd0 Hh. exists hd0. split; [now apply lookup_app_l_Some|done].
  - intros p st Hp. exists st. done.
Qed.

Create HintDb calm.

Ltac as_keeps :=
  intros _ ? _;
  match goal with
  | w' : World |- keeps_at ?R ?m ?w' => revert w'; change (keeps R m)
  end.

#[local] Hint Resolve calm_emit calm_server_emit calm_settle calm_new_future : calm.

Ltac calm_steps :=
  repeat match goal with
    | |- keeps calm (bind _ _) => apply (keeps_bind calm calm_trans); [|intros ?]
    | |- keeps calm (try_catch _ _) =>
        apply (keeps_try_catch calm calm_trans); [|intros ?]
    | |- keeps calm (ret _) => apply (keeps_ret calm calm_refl)
    | |- keeps calm (throw _) => apply (keeps_throw calm calm_refl)
    | |- keeps calm stuck => apply (keeps_stuck calm)
    | |- keeps calm (get_handler _) => apply (keeps_get_handler calm calm_refl)
    | |- keeps calm (get_socket _) => apply (keeps_get_socket calm calm_refl)
    | |- keeps calm (modify_socket _ _) =>
        apply calm_modify_socket; intros []; reflexivity
    | |- keeps calm _ => solve [auto 1 with calm nocore]
    end.

Lemma calm_sock_on (s : nat) (ev : SockEvent) (fn : Listener) : keeps calm (sock_on s ev fn).
Proof. unfold sock_on. calm_steps. Qed.
#[local] Hint Resolve calm_sock_on : calm.

Lemma calm_sock_once (s : nat) (ev : SockEvent) (fn : Listener) :
  keeps calm (sock_once s ev fn).
Proof. unfold sock_once. calm_steps. Qed.
#[local] Hint Resolve calm_sock_once : calm.

Lemma calm_sock_off (s : nat) (ev : SockEvent) (fn : Listener) :
  keeps calm (sock_off s ev fn).
Proof. unfold sock_off. calm_steps. Qed.
#[local] Hint Resolve calm_sock_off : calm.

Lemma calm_setupSocket (h : nat) : keeps calm (setupSocket h).
Proof.
  unfold setupSocket. calm_steps. destruct (_socket a); calm_steps.
Qed.
#[local] Hint Resolve calm_setupSocket : calm.

Lemma calm_readyState_of (socket : option nat) : keeps calm (readyState_of socket).
Proof. destruct socket; cbn [readyState_of]; calm_steps. Qed.
#[local] Hint Resolve calm_readyState_of : calm.

Lemma calm_set_socket (h : nat) (socket : option nat) : keeps calm (set_socket h socket).
Proof.
  intros w. unfold set_socket. apply (keeps_with_handler calm). intros hd Hh.
  destruct (decide (socket = _socket hd)); [apply calm_refl|].
  apply (keeps_at_bind calm calm_trans).
  - unfold keeps_at, put_handler. apply (grows_put_handler w h hd _ Hh); reflexivity.
  - as_keeps. calm_steps. destruct (swap_event _ _); calm_steps.
Qed.
#[local] Hint Resolve calm_set_socket : calm.

Lemma calm_handleClose (h : nat) (code : Z) (reason : string) :
  keeps calm (handleClose h code reason).
Proof.
  unfold handleClose. calm_steps.
  destruct (_socket a); calm_steps.
Qed.
#[local] Hint Resolve calm_handleClose : calm.

Lemma calm_client_receive (h : nat) (d : json) : keeps calm (client_receive h d).
Proof.
  intros w. unfold client_receive. apply (keeps_with_handler calm). intros hd Hh.
  destruct (find_pending _ _) as [pr|]; [|apply calm_refl].
  apply (keeps_at_bind calm calm_trans).
  - unfold keeps_at, put_handler. apply (grows_put_handler w h hd _ Hh); reflexivity.
  - as_keeps. destruct (get_prop d "error"); calm_steps.
Qed.
#[local] Hint Resolve calm_client_receive : calm.

Lemma calm_handleMessage (h : nat) (data : Frame) : keeps calm (handleMessage h data).
Proof.
  assert (Hread : forall d k, keeps calm (read_prop d k))
    by (intros [] k; cbn [read_prop]; calm_steps).
  unfold handleMessage. calm_steps.
  - destruct data; cbn [JSON_parse]; calm_steps.
  - destruct (truthy _); calm_steps.
    destruct (_ || _); [|destruct (is_str _ _)]; calm_steps.
Qed.
#[local] Hint Resolve calm_handleMessage : calm.

Lemma calm_removeListeners (conn s : nat) : keeps calm (removeListeners conn s).
Proof. unfold removeListeners. calm_steps. Qed.
#[local] Hint Resolve calm_removeListeners : calm.

Lemma calm_new_handler (socket : option nat) (opts : Options) :
  keeps calm (new_handler socket opts).
Proof.
  intros w. unfold keeps_at, new_handler.
  pose proof (calm_handlers_app w (mkHandler socket opts (mkClient 1 []) [])) as H0.
  set (w0 := set_handlers _ w) in *.
  assert (Hk : keeps calm (setupSocket (length (handlers w)) ;;; ret (length (handlers w))))
    by calm_steps.
  specialize (Hk w0). unfold keeps_at in Hk.
  destruct ((setupSocket _ ;;; ret _) w0); [| |exact I]; eapply calm_trans; eassumption.
Qed.
#[local] Hint Resolve calm_new_handler : calm.

Lemma same_registry_new_handler (socket : option nat) (opts : Options) :
  keeps same_registry (new_handler socket opts).
Proof.
  assert (Hrefl : forall w, same_registry w w) by done.
  assert (Htrans : forall a b c, same_registry a b -> same_registry b c -> same_registry a c)
    by (unfold same_registry; congruence).
  assert (Hmod : forall s f, keeps same_registry (modify_socket s f)).
  { intros s f w. unfold keeps_at, modify_socket, bind, get_socket.
    destruct (sockets w !! s); done. }
  assert (Hsetup : forall h, keeps same_registry (setupSocket h)).
  { intros h. unfold setupSocket.
    apply (keeps_bind _ Htrans); [apply (keeps_get_handler _ Hrefl)|intros hd].
    destruct (_socket hd); [|apply (keeps_ret _ Hrefl)].
    unfold sock_on. repeat (apply (keeps_bind _ Htrans); [apply Hmod|intros _]).
    apply Hmod. }
  intros w. unfold keeps_at, new_handler.
  set (w0 := set_handlers _ w).
  assert (Hk : keeps same_registry
                 (setupSocket (length (handlers w)) ;;; ret (length (handlers w)))).
  { apply (keeps_bind _ Htrans); [apply Hsetup|intros _; apply (keeps_ret _ Hrefl)]. }
  specialize (Hk w0). unfold keeps_at in Hk.
  destruct ((setupSocket _ ;;; ret _) w0); done.
Qed.

Lemma calm_srv_messageHandler
  (socket_emit : nat -> SockEvent -> EventArg -> M unit) (conn s : nat) (data : Frame) :
  (forall s' ev arg, keeps calm (socket_emit s' ev arg)) ->
  keeps calm (srv_messageHandler socket_emit conn s data).
Proof.
  intros Hemit.
  assert (Hread : forall d k, keeps calm (read_prop d k))
    by (intros [] k; cbn [read_prop]; calm_steps).
  unfold srv_messageHandler. calm_steps.
  - destruct data; cbn [JSON_parse]; calm_steps.
  - destruct a0 as [[| | |deviceId| |]|]; calm_steps.
    intros w. unfold keeps_at.
    destruct (rpcHandlers w !! deviceId) as [rpcHandler|] eqn:Hr.
    + revert w Hr. intros w _. change (keeps_at calm
        (set_socket rpcHandler (Some s) ;;; socket_emit s EvMessage (ArgMessage data)) w).
      revert w. change (keeps calm
        (set_socket rpcHandler (Some s) ;;; socket_emit s EvMessage (ArgMessage data))).
      calm_steps.
    + change (keeps_at calm
        (rpcHandler <- new_handler (Some s) (options w) ;;
         registry_set deviceId rpcHandler ;;;
         server_emit (SDiscover deviceId "outboundWebsocket")) w).
      apply (keeps_at_bind calm calm_trans); [apply calm_new_handler|].
      intros h w' Hnew.
      pose proof (same_registry_new_handler (Some s) (options w) w) as Hreg.
      unfold keeps_at in Hreg. rewrite Hnew in Hreg.
      apply (keeps_at_bind calm calm_trans).
      * unfold keeps_at, registry_set. apply calm_registry_set.
        rewrite Hreg. exact Hr.
      * as_keeps. calm_steps.
Qed.

Lemma calm_call_listener
  (socket_emit : nat -> SockEvent -> EventArg -> M unit) (fn : Listener) (arg : EventArg) :
  (forall s' ev arg', keeps calm (socket_emit s' ev arg')) ->
  keeps calm (call_listener socket_emit fn arg).
Proof.
  intros Hemit.
  destruct fn, arg; cbn [call_listener];
    try (unfold handleOpen, handleError, srv_closeHandler, srv_errorHandler; calm_steps).
  now apply calm_srv_messageHandler.
Qed.

Lemma calm_run_listeners (call : Listener -> EventArg -> M unit) (s : nat)
  (regs : list Registration) (arg : EventArg) :
  (forall fn arg', keeps calm (call fn arg')) ->
  keeps calm (run_listeners call s regs arg).
Proof.
  intros Hcall. induction regs as [|r regs IH]; cbn [run_listeners]; calm_steps.
  unfold unregister_once. destruct (reg_once r); calm_steps.
Qed.

Lemma calm_emit_at (depth s : nat) (ev : SockEvent) (arg : EventArg) :
  keeps calm (emit_at depth s ev arg).
Proof.
  revert s ev arg. induction depth as [|depth IH]; intros s ev arg.
  - cbn [emit_at]. calm_steps.
  - rewrite emit_at_S. calm_steps.
    destruct (unhandled _ _ _); calm_steps.
    apply calm_run_listeners. intros fn arg'. now apply calm_call_listener.
Qed.

Lemma quiet_lookup (w w' : World) (s : nat) (sk : Socket) :
  quiet w w' -> sockets w !! s = Some sk ->
  exists sk', sockets w' !! s = Some sk' /\ readyState sk' = readyState sk /\
              sent sk' = sent sk /\ closeCalls sk' = closeCalls sk.
Proof.
  intros Hq Hs.
  assert (Hv : (vitals <$> sockets w') !! s = Some (vitals sk))
    by (rewrite Hq, list_lookup_fmap, Hs; reflexivity).
  rewrite list_lookup_fmap in Hv.
  destruct (sockets w' !! s) as [sk'|]; [|discriminate].
  exists sk'. injection Hv as Hr Hsent Hcc. done.
Qed.

Lemma quiet_length (w w' : World) :
  quiet w w' -> length (sockets w') = length (sockets w).
Proof.
  intros Hq. rewrite <- (length_fmap vitals (sockets w')), Hq. apply length_fmap.
Qed.

Lemma keeps_ended (R : World -> World -> Prop) {A} (m : M A) (w w' : World) :
  keeps_at R m w -> ended (m w) w' -> R w w'.
Proof. unfold keeps_at, ended. destruct (m w); intros HR Hend; subst; done. Qed.

Lemma calm_socket_emit (s : nat) (ev : SockEvent) (arg : EventArg) :
  keeps calm (socket_emit s ev arg).
Proof. unfold socket_emit. calm_steps. apply calm_emit_at. Qed.

(** Delivering an event on a socket, whatever is registered on it and however
    deep listeners emit in turn, never sends on a socket, never calls
    [close()], never changes a [readyState] and never adds or drops a socket,
    whether the delivery returns or throws. *)
Theorem event_delivery_never_sends_or_closes
  (depth s : nat) (ev : SockEvent) (arg : EventArg) (w w' : World) :
  ended (emit_at depth s ev arg w) w' \/ ended (socket_emit s ev arg w) w' ->
  length (sockets w') = length (sockets w) /\
  forall s' sk, sockets w !! s' = Some sk ->
    exists sk', sockets w' !! s' = Some sk' /\ readyState sk' = readyState sk /\
                sent sk' = sent sk /\ closeCalls sk' = closeCalls sk.
Proof.
  intros Hrun.
  assert (Hq : calm w w').
  { destruct Hrun as [Hr|Hr]; revert Hr; apply keeps_ended;
      [apply calm_emit_at|apply calm_socket_emit]. }
  destruct Hq as [Hq _].
  split; [now apply quiet_length|]. intros s' sk Hs. now apply (quiet_lookup w w').
Qed.

Lemma event_delivery_never_sends_or_closes_witness :
  length (sockets opened) = length (sockets (idle_handler (Some 0%nat) OPEN)) /\
  forall s' sk, sockets (idle_handler (Some 0%nat) OPEN) !! s' = Some sk ->
    exists sk', sockets opened !! s' = Some sk' /\ readyState sk' = readyState sk /\
                sent sk' = sent sk /\ closeCalls sk' = closeCalls sk.
Proof.
  apply (event_delivery_never_sends_or_closes 0 0 EvOpen ArgNone
           (idle_handler (Some 0%nat) OPEN) opened).
  right. vm_compute. reflexivity.
Defined.

(** Delivering an event never takes anything back either: every registry
    entry stays, every handler stays with its options and with the events it
    had emitted (more may follow), every promise stays and a settled one stays
    as it was settled, and the server's events are only added to. *)
Theorem event_delivery_only_adds
  (depth s : nat) (ev : SockEvent) (arg : EventArg) (w w' : World) :
  ended (emit_at depth s ev arg w) w' \/ ended (socket_emit s ev arg w) w' ->
  rpcHandlers w ⊆ rpcHandlers w' /\
  (forall h hd, handlers w !! h = Some hd ->
     exists hd', handlers w' !! h = Some hd' /\ h_options hd' = h_options hd /\
                 emitted hd `prefix_of` emitted hd') /\
  (forall p st, futures w !! p = Some st ->
     exists st', futures w' !! p = Some st' /\ (st <> FPending -> st' = st)) /\
  serverEmitted w `prefix_of` serverEmitted w'.
Proof.
  intros Hrun.
  assert (Hq : calm w w').
  { destruct Hrun as [Hr|Hr]; revert Hr; apply keeps_ended;
      [apply calm_emit_at|apply calm_socket_emit]. }
  destruct Hq as [_ (Hr & Hh & Hf & He & _)]. done.
Qed.

Lemma event_delivery_only_adds_witness :
  rpcHandlers (idle_handler (Some 0%nat) OPEN) ⊆ rpcHandlers opened /\
  (forall h hd, handlers (idle_handler (Some 0%nat) OPEN) !! h = Some hd ->
     exists hd', handlers opened !! h = Some hd' /\ h_options hd' = h_options hd /\
                 emitted hd `prefix_of` emitted hd') /\
  (forall p st, futures (idle_handler (Some 0%nat) OPEN) !! p = Some st ->
     exists st', futures opened !! p = Some st' /\ (st <> FPending -> st' = st)) /\
  serverEmitted (idle_handler (Some 0%nat) OPEN) `prefix_of` serverEmitted opened.
Proof.
  apply (event_delivery_only_adds 0 0 EvOpen ArgNone
           (idle_handler (Some 0%nat) OPEN) opened).
  right. vm_compute. reflexivity.
Defined.

(** *** The calls a user makes *)

Lemma keeps_calm_grows {A} (m : M A) : keeps calm m -> keeps grows m.
Proof.
  intros Hm w. specialize (Hm w). unfold keeps_at, calm in *.
  destruct (m w); tauto.
Qed.

Lemma grows_modify_socket (s : nat) (f : Socket -> Socket) :
  keeps grows (modify_socket s f).
Proof.
  intros w. unfold keeps_at, modify_socket, bind, get_socket.
  destruct (sockets w !! s); [|exact I]. now apply grows_same.
Qed.

Ltac grows_steps :=
  repeat match goal with
    | |- keeps grows (bind _ _) => apply (keeps_bind grows grows_trans); [|intros ?]
    | |- keeps grows (try_catch _ _) =>
        apply (keeps_try_catch grows grows_trans); [|intros ?]
    | |- keeps grows (ret _) => apply (keeps_ret grows grows_refl)
    | |- keeps grows (throw _) => apply (keeps_throw grows grows_refl)
    | |- keeps grows stuck => apply (keeps_stuck grows)
    | |- keeps grows (modify_socket _ _) => apply grows_modify_socket
    | H : _ |- keeps grows _ => solve [apply H]
    | |- keeps grows _ => apply keeps_calm_grows; solve [auto 1 with calm nocore]
    | |- keeps grows _ => apply keeps_calm_grows; solve [calm_steps]
    end.

Ltac grows_cases :=
  grows_steps;
  repeat (match goal with
          | |- keeps grows (match ?x with _ => _ end) => destruct x
          end; grows_steps).

Lemma grows_handleRequest (h : nat) (payload : list (string * json))
  (ack : option JsError) : keeps grows (handleRequest h payload ack).
Proof.
  unfold handleRequest, connected, sendRequest, ws_send. grows_cases.
Qed.

Lemma grows_client_send (h : nat) (method : string) (params : option json)
  (timeout : Z) (transmit : list (string * json) -> M unit) :
  (forall payload, keeps grows (transmit payload)) ->
  keeps grows (client_send h method params timeout transmit).
Proof.
  intros Htransmit w. unfold client_send.
  apply (keeps_with_handler grows). intros hd Hh.
  apply (keeps_at_bind grows grows_trans); [apply keeps_calm_grows, calm_new_future|].
  intros p w1 Hnew. injection Hnew as <- <-.
  apply (keeps_at_bind grows grows_trans).
  - unfold keeps_at, put_handler.
    apply (grows_put_handler _ h hd); [exact Hh|reflexivity|reflexivity].
  - as_keeps. grows_steps.
    apply keeps_calm_grows, calm_modify_handler. intros hd0. split; reflexivity.
Qed.

Lemma grows_request (h : nat) (method : string) (params : option json)
  (ack : option JsError) : keeps grows (request h method params ack).
Proof.
  unfold request. grows_steps.
  apply grows_client_send. intros payload. apply grows_handleRequest.
Qed.

Lemma grows_destroy (h : nat) : keeps grows (destroy h).
Proof.
  assert (Hrej : forall reason l, keeps grows (reject_each reason l)).
  { intros reason l. induction l as [|pr l IH]; cbn [reject_each]; grows_steps. }
  assert (Hawait : forall p, keeps grows (awaitDisconnect h p)).
  { intros p. unfold awaitDisconnect. grows_cases. }
  unfold destroy. grows_steps.
  - intros w. unfold client_rejectAll. apply (keeps_with_handler grows). intros hd Hh.
    apply (keeps_at_bind grows grows_trans).
    + unfold keeps_at, put_handler.
      apply (grows_put_handler w h hd); [exact Hh|reflexivity|reflexivity].
    + as_keeps. apply Hrej.
  - unfold disconnect, ws_close. grows_cases; apply Hawait.
Qed.

Lemma grows_getRpcHandler (deviceId : string) : keeps grows (getRpcHandler deviceId).
Proof.
  intros w. pose proof (getRpcHandler_run w deviceId) as Hrun. unfold keeps_at.
  destruct (rpcHandlers w !! deviceId) as [stored|] eqn:Hr; rewrite Hrun.
  - apply grows_refl.
  - eapply grows_trans; [apply calm_handlers_app|].
    apply calm_registry_set. exact Hr.
Qed.

(** [request], [destroy] and [getRpcHandler] take nothing back: every registry
    entry stays, every handler stays with its options and the events it had
    emitted, the server's events stay, and a promise that was settled before
    the call is settled the same way after it. *)
Theorem calls_only_add (h : nat) (method : string) (params : option json)
  (ack : option JsError) (deviceId : string) (w w' : World) :
  ended (request h method params ack w) w' \/
  ended (destroy h w) w' \/
  ended (getRpcHandler deviceId w) w' ->
  rpcHandlers w ⊆ rpcHandlers w' /\
  (forall h0 hd, handlers w !! h0 = Some hd ->
     exists hd', handlers w' !! h0 = Some hd' /\ h_options hd' = h_options hd /\
                 emitted hd `prefix_of` emitted hd') /\
  (forall p st, futures w !! p = Some st ->
     exists st', futures w' !! p = Some st' /\ (st <> FPending -> st' = st)) /\
  serverEmitted w `prefix_of` serverEmitted w'.
Proof.
  intros Hrun.
  assert (Hg : grows w w').
  { destruct Hrun as [Hr|[Hr|Hr]]; revert Hr; apply keeps_ended;
      [apply grows_request|apply grows_destroy|apply grows_getRpcHandler]. }
  destruct Hg as (Hr & Hh & Hf & He & _). done.
Qed.

(** ** First contact that succeeds *)

Lemma reg_matches_fn (ev ev' : SockEvent) (fn fn' : Listener) (o : bool) :
  fn' <> fn -> reg_matches ev fn (mkReg ev' fn' o) = false.
Proof.
  intros Hfn. unfold reg_matches; cbn.
  rewrite (bool_decide_eq_false_2 (fn' = fn)) by done. apply andb_false_r.
Qed.

Ltac regs_eval :=
  repeat (cbn [remove_first rev app andb reg_once reg_event reg_fn];
          rewrite ?reg_matches_same;
          rewrite ?reg_matches_event by discriminate;
          rewrite ?reg_matches_fn by discriminate).

Lemma new_handler_at (L : list Socket) (s : nat) (X : Socket) (opts : Options)
  H F R O C E :
  (s < length L)%nat ->
  new_handler (Some s) opts (mkWorld (<[s := X]> L) H F R O C E)
  = Ok (length H)
       (mkWorld (<[s := with_listeners (fun l => l ++ handler_regs (length H)) X]> L)
                (H ++ [mkHandler (Some s) opts (mkClient 1 []) []]) F R O C E).
Proof.
  intros Hlen. unfold new_handler, bind. world_norm.
  erewrite setupSocket_ok.
  - unfold ret, set_sockets; cbn. now rewrite list_insert_insert_eq.
  - cbn. now apply list_lookup_middle.
  - reflexivity.
  - cbn. now apply list_lookup_insert_eq.
Qed.

(** [removeListeners] once the handler's registrations are on the socket as
    well: they stay, the closures go. *)
Lemma removeListeners_bound (w : World) (s conn h : nat) (X : Socket) :
  sockets w !! s = Some X ->
  listeners X = [mkReg EvClose (srvCloseHandler conn s) true;
                 mkReg EvError (srvErrorHandler conn s) true] ++ handler_regs h ->
  removeListeners conn s w
  = Ok tt (set_sockets (fun l =>
       <[s := with_listeners (fun _ => handler_regs h) X]> l) w).
Proof.
  intros Hs HX. unfold removeListeners, bind.
  rewrite (sock_off_ok w s X _ _ Hs).
  erewrite sock_off_ok by (eapply sockets_insert_lookup, Hs).
  rewrite set_sockets_twice.
  erewrite sock_off_ok by (eapply sockets_insert_lookup, Hs).
  rewrite set_sockets_twice.
  unfold set_sockets. do 3 f_equal.
  destruct X as [rs ls snt cc]. cbn [listeners] in HX. subst ls.
  unfold with_listeners, remove_last, handler_regs.
  cbn [readyState listeners sent closeCalls]. f_equal.
  regs_eval. reflexivity.
Qed.

Lemma frame_src_Some (data : Frame) (deviceId : string) :
  frame_src data = Some deviceId ->
  exists fields, data = Parsed (JObj fields) /\
                 assoc_get "src" fields = Some (JStr deviceId).
Proof.
  destruct data as [raw|[| | | | |fields]]; try discriminate.
  cbn [frame_src get_prop]. intros Hsrc. exists fields. split; [reflexivity|].
  destruct (assoc_get "src" fields) as [[| | |str| |]|]; try discriminate.
  now injection Hsrc as ->.
Qed.

Lemma srv_messageHandler_with_src
  (socket_emit : nat -> SockEvent -> EventArg -> M unit)
  (conn s : nat) (data : Frame) (deviceId : string) (w : World) :
  frame_src data = Some deviceId ->
  srv_messageHandler socket_emit conn s data w
  = (try_catch
       (match rpcHandlers w !! deviceId with
        | Some rpcHandler =>
            set_socket rpcHandler (Some s) ;;;
            socket_emit s EvMessage (ArgMessage data)
        | None =>
            rpcHandler <- new_handler (Some s) (options w) ;;
            registry_set deviceId rpcHandler ;;;
            server_emit (SDiscover deviceId "outboundWebsocket")
        end)
       (fun e => server_emit (SError e)) ;;;
     removeListeners conn s) w.
Proof.
  intros Hsrc. destruct (frame_src_Some data deviceId Hsrc) as (fields & -> & Hget).
  cbv [srv_messageHandler try_catch bind ret JSON_parse read_prop get_prop].
  rewrite Hget. destruct (rpcHandlers w !! deviceId); reflexivity.
Qed.

(** The first frame of a device the server does not know yet, on a connection
    on which nothing is registered: a handler is made for the socket and
    stored under the device id, ['discover'] is emitted, and the server's
    closures are taken off the socket.  The frame itself is not dispatched to
    the new handler: the handler has emitted nothing. *)
Theorem first_frame_of_new_device
  (w : World) (s : nat) (sk : Socket) (data : Frame) (deviceId : string) :
  sockets w !! s = Some sk ->
  listeners sk = [] ->
  frame_src data = Some deviceId ->
  rpcHandlers w !! deviceId = None ->
  exists w1,
    handleConnection s w = Ok tt w1 /\
    ws_message s data w1 = Ok tt (discovered w s sk deviceId).
Proof.
  intros Hs Hfresh Hsrc Hnew. assert (Hlen := lookup_lt_Some _ _ _ Hs).
  eexists. split; [apply (handleConnection_run w s sk Hs)|].
  destruct w as [L H F R O C E]. cbn [sockets handlers futures rpcHandlers options
                                      connections serverEmitted] in *.
  destruct sk as [rs ls snt cc]. cbn in Hfresh. subst ls.
  unfold discovered, with_listeners. cbn [readyState listeners sent closeCalls
    sockets handlers futures rpcHandlers options connections serverEmitted app].
  unfold ws_message, socket_emit, bind at 1.
  run_socket Hlen. cbn [listeners length srv_regs app]. rewrite emit_at_S.
  unfold bind at 1. run_socket Hlen.
  change (registered EvMessage _) with [mkReg EvMessage (srvMessageHandler C s) true].
  cbn [unhandled run_listeners unregister_once reg_once reg_fn reg_event].
  unfold bind at 1. run_socket Hlen.
  unfold with_listeners, srv_regs. cbn [readyState listeners sent closeCalls]. regs_simpl.
  unfold bind at 1. cbn [call_listener].
  rewrite (srv_messageHandler_with_src _ C s data deviceId _ Hsrc).
  cbn [rpcHandlers options]. rewrite Hnew.
  unfold bind at 1, try_catch, bind at 1.
  rewrite new_handler_at by exact Hlen.
  unfold bind at 1, registry_set, server_emit. world_norm.
  erewrite removeListeners_bound;
    [|cbn; now apply list_lookup_insert_eq|reflexivity].
  unfold ret, set_sockets, with_listeners; cbn.
  rewrite list_insert_insert_eq, <- app_assoc. reflexivity.
Qed.

Lemma first_frame_of_new_device_witness :
  exists w1,
    handleConnection 0 (one_connection OPEN) = Ok tt w1 /\
    ws_message 0 (status_frame "shellyplus1-aabbcc") w1
    = Ok tt (discovered (one_connection OPEN) 0 (mkSocket OPEN [] [] [])
                        "shellyplus1-aabbcc").
Proof.
  apply (first_frame_of_new_device (one_connection OPEN) 0 (mkSocket OPEN [] [] [])
           (status_frame "shellyplus1-aabbcc") "shellyplus1-aabbcc"); reflexivity.
Defined.

(** ** A handler and its socket *)

Lemma handleClose_run (w : World) (h : nat) (hd : Handler) (s : nat) (sk : Socket)
  (code : Z) (reason : string) :
  handlers w !! h = Some hd ->
  _socket hd = Some s ->
  sockets w !! s = Some sk ->
  handleClose h code reason w
  = Ok tt (set_handlers
             (fun l => <[h := with_emitted (fun l => l ++ [Disconnect code reason]) hd]> l)
             (set_sockets (fun l => <[s := with_listeners (unbind h) sk]> l) w)).
Proof.
  intros Hh Hsock Hs.
  unfold handleClose, bind at 1, get_handler. rewrite Hh, Hsock.
  unfold bind at 1. unfold bind at 1.
  rewrite (sock_off_ok w s sk _ _ Hs).
  unfold bind at 1.
  erewrite sock_off_ok by (eapply sockets_insert_lookup, Hs).
  rewrite set_sockets_twice.
  unfold bind at 1.
  erewrite sock_off_ok by (eapply sockets_insert_lookup, Hs).
  rewrite set_sockets_twice.
  erewrite sock_off_ok by (eapply sockets_insert_lookup, Hs).
  rewrite set_sockets_twice.
  erewrite emit_ok by exact Hh. reflexivity.
Qed.

Lemma remove_first_app_hit (p : Registration -> bool) (a b : list Registration) :
  existsb p a = true -> remove_first p (a ++ b) = remove_first p a ++ b.
Proof.
  induction a as [|r a IH]; cbn; [discriminate|].
  destruct (p r); [reflexivity|]. cbn. intros Ha. now rewrite IH.
Qed.

Lemma remove_last_app_hit (p : Registration -> bool) (l t : list Registration) :
  existsb p (rev t) = true -> remove_last p (l ++ t) = l ++ remove_last p t.
Proof.
  intros Ht. unfold remove_last.
  rewrite rev_app_distr, remove_first_app_hit by exact Ht.
  now rewrite rev_app_distr, rev_involutive.
Qed.

(** Unbinding takes off exactly what binding put on, whatever else is
    registered, the handler's own earlier registrations included. *)
Lemma unbind_bound (h : nat) (l : list Registration) :
  unbind h (l ++ handler_regs h) = l.
Proof.
  assert (Hstep : forall p t t',
             existsb p (rev t) = true -> remove_last p t = t' ->
             remove_last p (l ++ t) = l ++ t')
    by (intros p t t' Hhit <-; now apply remove_last_app_hit).
  unfold unbind, handler_regs.
  rewrite (Hstep _ _ [mkReg EvClose (closeHandler h) false;
                      mkReg EvMessage (messageHandler h) false;
                      mkReg EvError (errorHandler h) false])
    by (unfold remove_last; cbn [rev app existsb]; regs_eval; reflexivity).
  rewrite (Hstep _ _ [mkReg EvMessage (messageHandler h) false;
                      mkReg EvError (errorHandler h) false])
    by (unfold remove_last; cbn [rev app existsb]; regs_eval; reflexivity).
  rewrite (Hstep _ _ [mkReg EvError (errorHandler h) false])
    by (unfold remove_last; cbn [rev app existsb]; regs_eval; reflexivity).
  rewrite (Hstep _ _ [])
    by (unfold remove_last; cbn [rev app existsb]; regs_eval; reflexivity).
  apply app_nil_r.
Qed.

(** Binding a handler to its socket and then handling the socket's close
    gives every socket back as it was: [handleClose] removes the four
    registrations [setupSocket] added and no other. *)
Theorem bind_then_close_restores_socket
  (w : World) (h : nat) (hd : Handler) (s : nat) (sk : Socket)
  (code : Z) (reason : string) :
  handlers w !! h = Some hd ->
  _socket hd = Some s ->
  sockets w !! s = Some sk ->
  exists w1 w2,
    setupSocket h w = Ok tt w1 /\
    (listeners <$> sockets w1 !! s) = Some (listeners sk ++ handler_regs h) /\
    handleClose h code reason w1 = Ok tt w2 /\
    sockets w2 = sockets w /\
    emitted_by w2 h = emitted hd ++ [Disconnect code reason].
Proof.
  intros Hh Hsock Hs.
  eexists _, _. split; [apply (setupSocket_ok w h hd s sk Hh Hsock Hs)|].
  split; [rewrite (sockets_insert_lookup w s sk _ Hs); reflexivity|].
  split.
  - eapply handleClose_run; [exact Hh|exact Hsock|].
    eapply sockets_insert_lookup, Hs.
  - cbn. split.
    + rewrite list_insert_insert_eq. unfold with_listeners.
      cbn [readyState listeners sent closeCalls]. rewrite unbind_bound.
      destruct sk. now apply list_insert_id.
    + unfold emitted_by. cbn.
      now rewrite list_lookup_insert_eq by (eapply lookup_lt_Some, Hh).
Qed.

Lemma bind_then_close_restores_socket_witness :
  exists w1 w2,
    setupSocket 0 (idle_handler (Some 0%nat) OPEN) = Ok tt w1 /\
    (listeners <$> sockets w1 !! 0%nat) = Some (handler_regs 0 ++ handler_regs 0) /\
    handleClose 0 1000 "bye" w1 = Ok tt w2 /\
    sockets w2 = sockets (idle_handler (Some 0%nat) OPEN) /\
    emitted_by w2 0 = [] ++ [Disconnect 1000 "bye"].
Proof.
  apply (bind_then_close_restores_socket (idle_handler (Some 0%nat) OPEN) 0
           (mkHandler (Some 0%nat) (mkOptions "controller" 10) (mkClient 1 []) [])
           0 (mkSocket OPEN (handler_regs 0) [] []) 1000 "bye"); reflexivity.
Defined.

Lemma run_one_listener (call : Listener -> EventArg -> M unit) (s : nat)
  (ev : SockEvent) (fn : Listener) (arg : EventArg) (w : World) :
  run_listeners call s [mkReg ev fn false] arg w = call fn arg w.
Proof.
  cbn [run_listeners unregister_once reg_once reg_fn]. unfold bind, ret.
  destruct (call fn arg w) as [[] w'|e w'|]; reflexivity.
Qed.

(** Events of a socket that carries the registrations of one handler and
    nothing else, as it does after hand-off: ['open'] makes the handler emit
    [connect]; ['error'] is passed on as the handler's [error] event and is
    not thrown; ['close'] takes the registrations off and makes the handler
    emit [disconnect]; a ['message'] is what [handleMessage] makes of it. *)
Theorem events_of_the_handlers_socket
  (w : World) (h : nat) (hd : Handler) (s : nat) (sk : Socket) :
  handlers w !! h = Some hd ->
  _socket hd = Some s ->
  sockets w !! s = Some sk ->
  listeners sk = handler_regs h ->
  (exists w', socket_emit s EvOpen ArgNone w = Ok tt w' /\
              sockets w' = sockets w /\
              emitted_by w' h = emitted hd ++ [Connect]) /\
  (forall message,
     exists w', socket_emit s EvError (ArgError message) w = Ok tt w' /\
                sockets w' = sockets w /\
                emitted_by w' h = emitted hd ++ [Error message]) /\
  (forall code reason,
     exists w', socket_emit s EvClose (ArgClose code reason) w = Ok tt w' /\
                sockets w' = <[s := with_listeners (fun _ => []) sk]> (sockets w) /\
                emitted_by w' h = emitted hd ++ [Disconnect code reason]) /\
  (forall data,
     socket_emit s EvMessage (ArgMessage data) w = handleMessage h data w).
Proof.
  intros Hh Hsock Hs Hbound.
  assert (Hemit : forall ev arg,
            socket_emit s ev arg w
            = match unhandled ev (registered ev sk) arg with
              | Some e => throw e w
              | None => run_listeners (call_listener (emit_at 4)) s (registered ev sk) arg w
              end).
  { intros ev arg. unfold socket_emit, bind at 1, get_socket at 1. rewrite Hs, Hbound.
    change (length (handler_regs h)) with 4%nat. rewrite emit_at_S.
    unfold bind at 1, get_socket at 1. rewrite Hs.
    now destruct (unhandled ev (registered ev sk) arg). }
  destruct sk as [rs ls snt cc]. cbn [listeners] in Hbound. subst ls.
  assert (Hlog : forall e,
            emitted_by (set_handlers (fun l =>
                          <[h := with_emitted (fun l => l ++ [e]) hd]> l) w) h
            = emitted hd ++ [e]).
  { intros e. unfold emitted_by. cbn.
    now rewrite list_lookup_insert_eq by (eapply lookup_lt_Some, Hh). }
  split; [|split; [|split]].
  - rewrite Hemit.
    change (registered EvOpen _) with [mkReg EvOpen (openHandler h) false].
    cbn [unhandled]. rewrite run_one_listener. cbn [call_listener].
    unfold handleOpen. rewrite (emit_ok w h hd _ Hh).
    eexists. split; [reflexivity|]. split; [reflexivity|apply Hlog].
  - intros message. rewrite Hemit.
    change (registered EvError _) with [mkReg EvError (errorHandler h) false].
    cbn [unhandled]. rewrite run_one_listener. cbn [call_listener].
    unfold handleError. rewrite (emit_ok w h hd _ Hh).
    eexists. split; [reflexivity|]. split; [reflexivity|apply Hlog].
  - intros code reason. rewrite Hemit.
    change (registered EvClose _) with [mkReg EvClose (closeHandler h) false].
    cbn [unhandled]. rewrite run_one_listener. cbn [call_listener].
    rewrite (handleClose_run w h hd s _ code reason Hh Hsock Hs).
    eexists. split; [reflexivity|]. split.
    + cbn. f_equal. unfold with_listeners. cbn [readyState listeners sent closeCalls].
      f_equal. apply (unbind_bound h []).
    + unfold emitted_by. cbn.
      now rewrite list_lookup_insert_eq by (eapply lookup_lt_Some, Hh).
  - intros data. rewrite Hemit.
    change (registered EvMessage _) with [mkReg EvMessage (messageHandler h) false].
    cbn [unhandled]. rewrite run_one_listener. cbn [call_listener]. reflexivity.
Qed.

Lemma events_of_the_handlers_socket_witness :
  exists w', socket_emit 0 EvOpen ArgNone (idle_handler (Some 0%nat) OPEN) = Ok tt w' /\
             sockets w' = sockets (idle_handler (Some 0%nat) OPEN) /\
             emitted_by w' 0 = [] ++ [Connect].
Proof.
  exact (proj1 (events_of_the_handlers_socket (idle_handler (Some 0%nat) OPEN) 0
           (mkHandler (Some 0%nat) (mkOptions "controller" 10) (mkClient 1 []) [])
           0 (mkSocket OPEN (handler_regs 0) [] [])
           eq_refl eq_refl eq_refl eq_refl)).
Defined.

(** ** First contact of a device that is known *)

Lemma find_pending_elem (id : option json) (l : list PendingRequest) (pr : PendingRequest) :
  find_pending id l = Some pr -> pr ∈ l.
Proof.
  unfold find_pending. destruct id as [[| |n| | |]|]; try discriminate.
  intros Hfind. apply find_some in Hfind as [Hin _]. now apply list_elem_of_In.
Qed.

(** On a handler whose pending requests have their promises in the store,
    [handleMessage] returns for every frame that parses to an object, and
    changes handlers and promises only. *)
Lemma handleMessage_returns (w : World) (h : nat) (hd : Handler)
  (fields : list (string * json)) :
  handlers w !! h = Some hd ->
  (forall pr, pr ∈ pending (client hd) -> is_Some (futures w !! resultFuture pr)) ->
  exists w', handleMessage h (Parsed (JObj fields)) w = Ok tt w' /\ dispatched h w w'.
Proof.
  intros Hh Hfut.
  assert (Hput : forall hd', _socket hd' = _socket hd ->
            dispatched h w (set_handlers (fun l => <[h := hd']> l) w)).
  { intros hd' Hsame. unfold dispatched; cbn.
    rewrite length_insert, list_lookup_insert_eq by (eapply lookup_lt_Some, Hh).
    rewrite Hh. cbn. rewrite Hsame. repeat split; reflexivity. }
  rewrite handleMessage_run by discriminate.
  destruct (truthy _).
  - unfold client_receive, bind at 1, get_handler. rewrite Hh.
    destruct (find_pending _ _) as [pr|] eqn:Hfind.
    + apply find_pending_elem in Hfind.
      unfold bind, put_handler.
      set (w1 := set_handlers _ w).
      assert (Hd1 : dispatched h w w1) by (apply Hput; reflexivity).
      assert (Hsettle : forall st, exists w',
                 settle (resultFuture pr) st w1 = Ok tt w' /\ dispatched h w w').
      { intros st. destruct (settle_ok w1 (resultFuture pr) st (Hfut pr Hfind))
          as (w' & Hrun & Hs' & Hh' & _).
        exists w'. split; [exact Hrun|].
        unfold settle in Hrun.
        destruct (futures w1 !! resultFuture pr) as [[| |]|]; try discriminate;
          injection Hrun as <-; exact Hd1. }
      destruct (get_prop (JObj fields) "error"); apply Hsettle.
    + exists w. split; [reflexivity|]. unfold dispatched. repeat split; reflexivity.
  - destruct (_ || _); [|destruct (is_str _ "NotifyEvent")].
    + rewrite (emit_ok w h hd _ Hh). eexists. split; [reflexivity|].
      apply Hput. reflexivity.
    + rewrite (emit_ok w h hd _ Hh). eexists. split; [reflexivity|].
      apply Hput. reflexivity.
    + exists w. split; [reflexivity|]. unfold dispatched. repeat split; reflexivity.
Qed.

(** What the server and the handler do with the first frame of a device
    that has a handler already. *)
Lemma known_device_contact
  (w : World) (s : nat) (sk : Socket) (data : Frame) (deviceId : string)
  (h : nat) (hd : Handler) :
  sockets w !! s = Some sk ->
  listeners sk = [] ->
  frame_src data = Some deviceId ->
  rpcHandlers w !! deviceId = Some h ->
  handlers w !! h = Some hd ->
  _socket hd <> Some s ->
  (forall o, _socket hd = Some o -> is_Some (sockets w !! o)) ->
  (forall pr, pr ∈ pending (client hd) -> is_Some (futures w !! resultFuture pr)) ->
  exists w1 w2 w3 w',
    handleConnection s w = Ok tt w1 /\
    ws_message s data w1 = Ok tt w' /\
    (* the swap *)
    handlers w2
    = <[h := add_event (swap_event (Some (readyState sk)) (state_of w (_socket hd)))
                       (with_socket (Some s) hd)]> (handlers w) /\
    futures w2 = futures w /\
    (* the dispatch *)
    handleMessage h data w2 = Ok tt w3 /\
    handlers w' = handlers w3 /\ futures w' = futures w3 /\
    (_socket <$> handlers w' !! h) = Some (Some s) /\
    (* the rest *)
    rpcHandlers w' = rpcHandlers w /\
    length (handlers w') = length (handlers w) /\
    serverEmitted w' = serverEmitted w ++ [SConnection s] /\
    sockets w' !! s = Some (with_listeners (fun _ => handler_regs h) sk) /\
    (forall s', s' <> s -> sockets w' !! s' = sockets w !! s').
Proof.
  intros Hs Hfresh Hsrc Hknown Hh Hne Hold Hfut.
  assert (Hlen := lookup_lt_Some _ _ _ Hs).
  destruct (frame_src_Some data deviceId Hsrc) as (fields & Hdata & _).
  destruct w as [L H F R O C E]. cbn [sockets handlers futures rpcHandlers options
                                      connections serverEmitted] in *.
  destruct sk as [rs ls snt cc]. cbn in Hfresh. subst ls.
  set (XA := mkSocket rs [mkReg EvClose (srvCloseHandler C s) true;
                          mkReg EvError (srvErrorHandler C s) true] snt cc).
  set (WA := mkWorld (<[s := XA]> L) H F R O (S C) (E ++ [SConnection s])).
  (* the setter *)
  destruct (set_socket_run WA h hd (Some s)) as
    (w2 & Hset & Hh2 & Hframe2 & Hnew2 & Hf2 & Hr2 & Ho2 & Hc2 & He2).
  { exact Hh. }
  { congruence. }
  { intros s0 [= <-]. cbn. rewrite list_lookup_insert_eq by exact Hlen. eauto. }
  { intros o Ho. cbn. rewrite list_lookup_insert_ne by congruence. now apply Hold. }
  assert (HsA : sockets WA !! s = Some XA) by (cbn; now apply list_lookup_insert_eq).
  specialize (Hnew2 s XA eq_refl HsA).
  assert (Hstate : state_of WA (Some s) = Some rs) by (cbn; now rewrite list_lookup_insert_eq).
  assert (Hstate_old : state_of WA (_socket hd) = state_of (mkWorld L H F R O C E) (_socket hd)).
  { destruct (_socket hd) as [o|]; [|reflexivity]. cbn.
    rewrite list_lookup_insert_ne by congruence. reflexivity. }
  rewrite Hstate, Hstate_old in Hh2.
  (* the dispatch *)
  set (hd2 := add_event _ _) in Hh2.
  assert (Hh2' : handlers w2 !! h = Some hd2)
    by (rewrite Hh2; cbn; apply list_lookup_insert_eq; eapply lookup_lt_Some, Hh).
  destruct (handleMessage_returns w2 h hd2 fields Hh2')
    as (w3 & Hmsg & Hs3 & Hr3 & Ho3 & Hc3 & He3 & Hl3 & Hsock3).
  { intros pr Hin. rewrite Hf2. apply Hfut.
    subst hd2. destruct (swap_event _ _); exact Hin. }
  rewrite <- Hdata in Hmsg.
  assert (Hs3' : sockets w3 !! s
                 = Some (with_listeners (fun l => l ++ handler_regs h) XA))
    by (rewrite Hs3; exact Hnew2).
  exists (mkWorld (<[s := with_listeners (fun l => l ++ srv_regs C s)
                                         (mkSocket rs [] snt cc)]> L)
                  H F R O (S C) (E ++ [SConnection s])),
         w2, w3,
         (set_sockets (fun l =>
            <[s := with_listeners (fun _ => handler_regs h)
                     (with_listeners (fun l => l ++ handler_regs h) XA)]> l) w3).
  split; [apply (handleConnection_run (mkWorld L H F R O C E) s _ Hs)|].
  split.
  { unfold ws_message, socket_emit, bind at 1.
    run_socket Hlen. cbn [with_listeners listeners length srv_regs app]. rewrite emit_at_S.
    unfold bind at 1. run_socket Hlen.
    change (registered EvMessage _) with [mkReg EvMessage (srvMessageHandler C s) true].
    cbn [unhandled run_listeners unregister_once reg_once reg_fn reg_event].
    unfold bind at 1. run_socket Hlen.
    unfold with_listeners, srv_regs. cbn [readyState listeners sent closeCalls]. regs_simpl.
    fold XA. fold WA.
    unfold bind at 1. cbn [call_listener].
    rewrite (srv_messageHandler_with_src _ C s data deviceId _ Hsrc).
    change (rpcHandlers WA) with R. rewrite Hknown.
    unfold bind at 1, try_catch, bind at 1. rewrite Hset.
    rewrite emit_at_S. unfold bind at 1, get_socket at 1. rewrite Hnew2.
    change (registered EvMessage _) with [mkReg EvMessage (messageHandler h) false].
    cbn [unhandled]. rewrite run_one_listener. cbn [call_listener]. rewrite Hmsg.
    erewrite removeListeners_bound; [|exact Hs3'|reflexivity].
    reflexivity. }
  cbn [handlers futures rpcHandlers serverEmitted sockets set_sockets].
  split; [exact Hh2|]. split; [exact Hf2|]. split; [exact Hmsg|].
  split; [reflexivity|]. split; [reflexivity|].
  split; [rewrite Hsock3, Hh2'; subst hd2; destruct (swap_event _ _); reflexivity|].
  split; [rewrite Hr3, Hr2; reflexivity|].
  split; [rewrite Hl3, Hh2; cbn; apply length_insert|].
  split; [rewrite He3, He2; reflexivity|].
  split.
  - rewrite list_lookup_insert_eq by (eapply lookup_lt_Some, Hs3'). reflexivity.
  - intros s' Hs'. rewrite list_lookup_insert_ne by congruence.
    rewrite Hs3, Hframe2 by congruence. cbn. now rewrite list_lookup_insert_ne by congruence.
Qed.

(** The first frame of a device that already has a handler, on a new
    connection on which nothing is registered: nothing is added to the
    registry, no handler is made and neither ['discover'] nor ['error'] is
    emitted; the handler's socket becomes the new socket, with the event the
    setter emits for the swap; the frame is then dispatched by the handler's
    [handleMessage]; the server's closures are taken off the new socket, which
    keeps the handler's registrations.  No other socket changes. *)
Theorem first_frame_of_known_device
  (w : World) (s : nat) (sk : Socket) (data : Frame) (deviceId : string)
  (h : nat) (hd : Handler) :
  sockets w !! s = Some sk ->
  listeners sk = [] ->
  frame_src data = Some deviceId ->
  rpcHandlers w !! deviceId = Some h ->
  handlers w !! h = Some hd ->
  _socket hd <> Some s ->
  (forall o, _socket hd = Some o -> is_Some (sockets w !! o)) ->
  (forall pr, pr ∈ pending (client hd) -> is_Some (futures w !! resultFuture pr)) ->
  exists w1 w2 w3 w',
    handleConnection s w = Ok tt w1 /\
    ws_message s data w1 = Ok tt w' /\
    (* the swap *)
    handlers w2
    = <[h := add_event (swap_event (Some (readyState sk)) (state_of w (_socket hd)))
                       (with_socket (Some s) hd)]> (handlers w) /\
    futures w2 = futures w /\
    (* the dispatch *)
    handleMessage h data w2 = Ok tt w3 /\
    handlers w' = handlers w3 /\ futures w' = futures w3 /\
    (_socket <$> handlers w' !! h) = Some (Some s) /\
    (* the rest *)
    rpcHandlers w' = rpcHandlers w /\
    length (handlers w') = length (handlers w) /\
    serverEmitted w' = serverEmitted w ++ [SConnection s] /\
    sockets w' !! s = Some (with_listeners (fun _ => handler_regs h) sk) /\
    (forall s', s' <> s -> sockets w' !! s' = sockets w !! s').
Proof. exact (known_device_contact w s sk data deviceId h hd). Qed.

Lemma first_frame_of_known_device_witness :
  exists w1 w2 w3 w',
    handleConnection 1 known_device = Ok tt w1 /\
    ws_message 1 (status_frame "shellyplus1-aabbcc") w1 = Ok tt w' /\
    handlers w2
    = <[0%nat := add_event (swap_event (Some OPEN) (state_of known_device (Some 0%nat)))
                   (with_socket (Some 1%nat)
                      (mkHandler (Some 0%nat) (mkOptions "controller" 10)
                                 (mkClient 1 []) []))]>
        (handlers known_device) /\
    futures w2 = futures known_device /\
    handleMessage 0 (status_frame "shellyplus1-aabbcc") w2 = Ok tt w3 /\
    handlers w' = handlers w3 /\ futures w' = futures w3 /\
    (_socket <$> handlers w' !! 0%nat) = Some (Some 1%nat) /\
    rpcHandlers w' = rpcHandlers known_device /\
    length (handlers w') = length (handlers known_device) /\
    serverEmitted w' = serverEmitted known_device ++ [SConnection 1] /\
    sockets w' !! 1%nat
    = Some (with_listeners (fun _ => handler_regs 0) (mkSocket OPEN [] [] [])) /\
    (forall s', s' <> 1%nat -> sockets w' !! s' = sockets known_device !! s').
Proof.
  apply (first_frame_of_known_device known_device 1 (mkSocket OPEN [] [] [])
           (status_frame "shellyplus1-aabbcc") "shellyplus1-aabbcc" 0
           (mkHandler (Some 0%nat) (mkOptions "controller" 10) (mkClient 1 []) [])).
  - reflexivity.
  - reflexivity.
  - reflexivity.
  - vm_compute. reflexivity.
  - reflexivity.
  - discriminate.
  - intros o [= <-]. eexists; reflexivity.
  - intros pr Hin. now apply elem_of_nil in Hin.
Defined.

(** A handler that is not connected, because it never had a socket (it was
    made by [getRpcHandler] before its device connected) or because its socket
    is not open: the device's first frame on a new, open connection gives it
    that socket, the handler emits [connect] once and then dispatches the
    frame, and the server emits no ['discover'] for the device. *)
Theorem first_frame_connects_handler
  (w : World) (s : nat) (sk : Socket) (data : Frame) (deviceId : string)
  (h : nat) (hd : Handler) :
  sockets w !! s = Some sk ->
  listeners sk = [] ->
  readyState sk = OPEN ->
  frame_src data = Some deviceId ->
  rpcHandlers w !! deviceId = Some h ->
  handlers w !! h = Some hd ->
  _socket hd <> Some s ->
  (forall o, _socket hd = Some o -> is_Some (sockets w !! o)) ->
  socket_open w (_socket hd) = false ->
  (forall pr, pr ∈ pending (client hd) -> is_Some (futures w !! resultFuture pr)) ->
  exists w1 w2 w3 w',
    handleConnection s w = Ok tt w1 /\
    ws_message s data w1 = Ok tt w' /\
    emitted_by w2 h = emitted hd ++ [Connect] /\
    handleMessage h data w2 = Ok tt w3 /\
    handlers w' = handlers w3 /\ futures w' = futures w3 /\
    (_socket <$> handlers w' !! h) = Some (Some s) /\
    serverEmitted w' = serverEmitted w ++ [SConnection s].
Proof.
  intros Hs Hfresh Hopen Hsrc Hknown Hh Hne Hold Hclosed Hfut.
  destruct (known_device_contact w s sk data deviceId h hd Hs Hfresh Hsrc Hknown Hh
              Hne Hold Hfut)
    as (w1 & w2 & w3 & w' & H1 & H2 & Hh2 & _ & Hmsg & Hh' & Hf' & Hsock & _ & _ & He & _).
  exists w1, w2, w3, w'. repeat split; try assumption.
  rewrite (emitted_by_insert _ w2 h hd _ Hh Hh2), Hopen.
  unfold socket_open in Hclosed. unfold state_of.
  destruct (_socket hd) as [o|]; [|reflexivity].
  destruct (sockets w !! o) as [osk|]; [|reflexivity]. cbn.
  destruct (readyState osk); try discriminate; reflexivity.
Qed.

Lemma first_frame_connects_handler_witness :
  exists w1 w2 w3 w',
    handleConnection 0 awaited_device = Ok tt w1 /\
    ws_message 0 (status_frame "shellyplus1-aabbcc") w1 = Ok tt w' /\
    emitted_by w2 0 = [] ++ [Connect] /\
    handleMessage 0 (status_frame "shellyplus1-aabbcc") w2 = Ok tt w3 /\
    handlers w' = handlers w3 /\ futures w' = futures w3 /\
    (_socket <$> handlers w' !! 0%nat) = Some (Some 0%nat) /\
    serverEmitted w' = [] ++ [SConnection 0].
Proof.
  apply (first_frame_connects_handler awaited_device 0 (mkSocket OPEN [] [] [])
           (status_frame "shellyplus1-aabbcc") "shellyplus1-aabbcc" 0
           (mkHandler None (mkOptions "controller" 10) (mkClient 1 []) [])).
  - reflexivity.
  - reflexivity.
  - reflexivity.
  - reflexivity.
  - vm_compute. reflexivity.
  - reflexivity.
  - discriminate.
  - discriminate.
  - reflexivity.
  - intros pr Hin. now apply elem_of_nil in Hin.
Defined.

(** ** More on the setter, the payload and requests *)

(** Assigning the same socket again changes nothing: after any assignment, a
    second assignment of the same socket (or of [null] again) returns with the
    store as the first one left it. *)
Theorem set_socket_twice_is_once
  (w : World) (h : nat) (hd : Handler) (socket : option nat) :
  handlers w !! h = Some hd ->
  (forall s, socket = Some s -> is_Some (sockets w !! s)) ->
  (forall s, _socket hd = Some s -> is_Some (sockets w !! s)) ->
  exists w',
    set_socket h socket w = Ok tt w' /\
    set_socket h socket w' = Ok tt w'.
Proof.
  intros Hh Hnew Hold.
  assert (Hsame : forall w0 hd0, handlers w0 !! h = Some hd0 -> _socket hd0 = socket ->
            set_socket h socket w0 = Ok tt w0).
  { intros w0 hd0 Hh0 Hs0. unfold set_socket, bind, get_handler. rewrite Hh0.
    destruct (decide (socket = _socket hd0)); [reflexivity|congruence]. }
  destruct (option_eq_dec socket (_socket hd)) as [Heq|Hne].
  - exists w. split; now apply (Hsame w hd).
  - destruct (set_socket_run w h hd socket Hh Hne Hnew Hold) as (w' & Hrun & Hh' & _).
    exists w'. split; [exact Hrun|].
    eapply Hsame.
    + rewrite Hh'. apply list_lookup_insert_eq. eapply lookup_lt_Some, Hh.
    + destruct (swap_event _ _); reflexivity.
Qed.

Lemma set_socket_twice_is_once_witness :
  exists w',
    set_socket 0 (Some 1%nat) (two_sockets OPEN CLOSING) = Ok tt w' /\
    set_socket 0 (Some 1%nat) w' = Ok tt w'.
Proof.
  apply (set_socket_twice_is_once (two_sockets OPEN CLOSING) 0
           (mkHandler (Some 0%nat) (mkOptions "controller" 10) (mkClient 1 []) [])
           (Some 1%nat)).
  - reflexivity.
  - intros s [= <-]. eexists; reflexivity.
  - intros s [= <-]. eexists; reflexivity.
Defined.

(** [sendRequest] spreads the payload after the client id: a payload that
    has a [src] of its own is sent with that [src], not with the handler's
    client id, and every other key of the payload is sent with the value the
    payload gives it last. *)
Theorem sendRequest_payload_overrides_src
  (w : World) (h : nat) (hd : Handler) (s : nat) (sk : Socket)
  (payload : list (string * json)) (k : string) (v : json) :
  handlers w !! h = Some hd ->
  _socket hd = Some s ->
  sockets w !! s = Some sk ->
  assoc_get k (rev payload) = Some v ->
  exists w' data,
    sendRequest h payload None w = Ok tt w' /\
    (sent <$> sockets w' !! s) = Some (sent sk ++ [JObj data]) /\
    assoc_get k data = Some v.
Proof.
  intros Hh Hsock Hs Hk.
  unfold sendRequest, bind at 1, get_handler. rewrite Hh, Hsock.
  unfold ws_send, bind. rewrite (modify_socket_ok w s sk _ Hs). cbn [ret].
  eexists _, _. split; [reflexivity|].
  rewrite (sockets_insert_lookup w s sk _ Hs). cbn.
  split; [reflexivity|]. now rewrite assoc_get_spread, Hk.
Qed.

Lemma sendRequest_payload_overrides_src_witness :
  exists w' data,
    sendRequest 0 [("src", JStr "someone-else"); ("id", JNum 7)] None
                (idle_handler (Some 0%nat) OPEN) = Ok tt w' /\
    (sent <$> sockets w' !! 0%nat) = Some ([] ++ [JObj data]) /\
    assoc_get "src" data = Some (JStr "someone-else").
Proof.
  apply (sendRequest_payload_overrides_src (idle_handler (Some 0%nat) OPEN) 0
           (mkHandler (Some 0%nat) (mkOptions "controller" 10) (mkClient 1 []) [])
           0 (mkSocket OPEN (handler_regs 0) [] [])
           [("src", JStr "someone-else"); ("id", JNum 7)] "src" (JStr "someone-else"));
    reflexivity.
Defined.

(** [request] on a handler whose socket is open: the ['request'] event is
    emitted, the request is armed with a timer of [requestTimeout * 1000]
    milliseconds, and the payload is handed to [send].  When the socket's
    callback reports no error the returned promise stays pending and the
    request stays in the pending set; when it reports an error the promise is
    rejected with that error and the request is dropped from the set. *)
Theorem request_on_open_socket
  (w : World) (h : nat) (hd : Handler) (s : nat) (sk : Socket)
  (method : string) (params : option json) (ack : option JsError) :
  handlers w !! h = Some hd ->
  _socket hd = Some s ->
  sockets w !! s = Some sk ->
  readyState sk = OPEN ->
  exists p w' hd' data,
    request h method params ack w = Ok p w' /\
    futures w !! p = None /\
    handlers w' !! h = Some hd' /\
    emitted hd' = emitted hd ++ [Request method params] /\
    (sent <$> sockets w' !! s) = Some (sent sk ++ [data]) /\
    match ack with
    | None =>
        futures w' !! p = Some FPending /\
        pending (client hd')
        = pending (client hd)
          ++ [mkPending (nextId (client hd)) p (requestTimeout (h_options hd) * 1000)]
    | Some e =>
        futures w' !! p = Some (FRejected e) /\
        pending (client hd') = drop_pending (nextId (client hd)) (pending (client hd))
    end.
Proof.
  intros Hh Hsock Hs Hopen.
  unfold request, bind at 1. rewrite (emit_ok w h hd _ Hh).
  set (hd1 := with_emitted _ hd). set (w1 := set_handlers _ w).
  assert (Hh1 : handlers w1 !! h = Some hd1) by (eapply handlers_insert_lookup, Hh).
  unfold bind at 1, get_handler at 1. rewrite Hh1.
  unfold client_send, bind at 1, get_handler at 1. rewrite Hh1.
  unfold bind at 1, new_future.
  set (w2 := set_futures _ w1).
  unfold bind at 1, put_handler.
  set (hd3 := with_client _ hd1). set (w3 := set_handlers _ w2).
  assert (Hh3 : handlers w3 !! h = Some hd3) by (eapply handlers_insert_lookup, Hh1).
  assert (Hv : forall s', _socket hd3 = Some s' -> is_Some (sockets w3 !! s')).
  { intros s' Hs'. cbn in Hs'. rewrite Hsock in Hs'. injection Hs' as <-.
    cbn. eauto. }
  assert (Hconn : socket_open w3 (_socket hd3) = true).
  { cbn. rewrite Hsock. cbn. rewrite Hs, Hopen. reflexivity. }
  unfold bind at 1, try_catch, handleRequest, bind at 1.
  rewrite (connected_ok w3 h hd3 Hh3 Hv), Hconn. cbn [negb].
  unfold sendRequest, bind at 1, get_handler at 1. rewrite Hh3.
  cbn [_socket hd3 with_client hd1 with_emitted]. rewrite Hsock.
  unfold ws_send, bind at 1.
  rewrite (modify_socket_ok w3 s sk) by exact Hs.
  assert (Hfresh : futures w !! length (futures w) = None)
    by (apply lookup_ge_None_2; lia).
  destruct ack as [e|]; cbn [ret throw bind].
  - unfold bind at 1. rewrite (modify_handler_ok _ h hd3) by exact Hh3.
    unfold settle. cbn [futures set_handlers set_sockets set_futures w3 w2].
    rewrite list_lookup_middle by reflexivity. cbn [ret].
    eexists _, _, _, _. split; [reflexivity|]. split; [exact Hfresh|]. cbn.
    rewrite !list_insert_insert_eq.
    split; [apply list_lookup_insert_eq; eapply lookup_lt_Some, Hh|].
    split; [reflexivity|].
    split; [rewrite list_lookup_insert_eq by (eapply lookup_lt_Some, Hs); reflexivity|].
    split; [apply list_lookup_insert_eq; rewrite length_app; cbn; lia|].
    subst hd3 hd1. cbn. unfold drop_pending. rewrite filter_app. cbn.
    rewrite decide_False by (intros Hn; now apply Hn).
    now rewrite app_nil_r.
  - eexists _, _, _, _. split; [reflexivity|]. split; [exact Hfresh|]. cbn.
    rewrite !list_insert_insert_eq.
    split; [apply list_lookup_insert_eq; eapply lookup_lt_Some, Hh|].
    split; [reflexivity|].
    split; [rewrite list_lookup_insert_eq by (eapply lookup_lt_Some, Hs); reflexivity|].
    split; [now apply list_lookup_middle|reflexivity].
Qed.

Lemma request_on_open_socket_witness :
  exists p w' hd' data,
    request 0 "Shelly.GetStatus" None (Some (EMsg "write EPIPE"))
            (idle_handler (Some 0%nat) OPEN) = Ok p w' /\
    futures (idle_handler (Some 0%nat) OPEN) !! p = None /\
    handlers w' !! 0%nat = Some hd' /\
    emitted hd' = [] ++ [Request "Shelly.GetStatus" None] /\
    (sent <$> sockets w' !! 0%nat) = Some ([] ++ [data]) /\
    futures w' !! p = Some (FRejected (EMsg "write EPIPE")) /\
    pending (client hd') = drop_pending 1 [].
Proof.
  apply (request_on_open_socket (idle_handler (Some 0%nat) OPEN) 0
           (mkHandler (Some 0%nat) (mkOptions "controller" 10) (mkClient 1 []) [])
           0 (mkSocket OPEN (handler_regs 0) [] [])
           "Shelly.GetStatus" None (Some (EMsg "write EPIPE")));
    reflexivity.
Defined.

Lemma calls_only_add_witness :
  rpcHandlers (idle_handler (Some 0%nat) OPEN) ⊆ rpcHandlers asked /\
  (forall h0 hd, handlers (idle_handler (Some 0%nat) OPEN) !! h0 = Some hd ->
     exists hd', handlers asked !! h0 = Some hd' /\ h_options hd' = h_options hd /\
                 emitted hd `prefix_of` emitted hd') /\
  (forall p st, futures (idle_handler (Some 0%nat) OPEN) !! p = Some st ->
     exists st', futures asked !! p = Some st' /\ (st <> FPending -> st' = st)) /\
  serverEmitted (idle_handler (Some 0%nat) OPEN) `prefix_of` serverEmitted asked.
Proof.
  apply (calls_only_add 0 "Shelly.GetStatus" None None ""
           (idle_handler (Some 0%nat) OPEN) asked).
  left. vm_compute. reflexivity.
Defined.

Lemma destroy_orderly_witness :
  exists w',
    destroy 0 (awaiting 1) = Ok 1%nat w' /\
    (pending <$> (client <$> handlers w' !! 0%nat)) = Some [] /\
    (forall pr, pr ∈ [mkPending 1 0 10000] ->
       futures (awaiting 1) !! resultFuture pr = Some FPending ->
       futures w' !! resultFuture pr = Some (FRejected (EMsg "Connection closed"))) /\
    forall sk, sockets (awaiting 1) !! 0%nat = Some sk ->
      match readyState sk with
      | OPEN | CONNECTING =>
          sockets w'
          = <[0%nat := mkSocket CLOSING
                         (listeners sk ++ [mkReg EvClose (resolveAwait 1) true])
                         (sent sk) (closeCalls sk ++ [(1000, "User request")])]>
              (sockets (awaiting 1))
          /\ futures w' !! 1%nat = Some FPending
      | CLOSING =>
          sockets w'
          = <[0%nat := with_listeners
                         (fun l => l ++ [mkReg EvClose (resolveAwait 1) true]) sk]>
              (sockets (awaiting 1))
          /\ futures w' !! 1%nat = Some FPending
      | CLOSED => sockets w' = sockets (awaiting 1) /\
                  futures w' !! 1%nat = Some (FResolved None)
      end.
Proof.
  apply (destroy_orderly (awaiting 1) 0
           (mkHandler (Some 0%nat) (mkOptions "controller" 10)
                      (mkClient (1 + 1) [mkPending 1 0 10000]) [])).
  - reflexivity.
  - intros s [= <-]. eexists; reflexivity.
  - intros pr Hin. apply list_elem_of_singleton in Hin as ->. eexists; reflexivity.
Defined.

Lemma set_socket_old_socket_untouched_witness :
  exists w',
    set_socket 0 None (two_sockets OPEN OPEN) = Ok tt w' /\
    sockets w' !! 0%nat = sockets (two_sockets OPEN OPEN) !! 0%nat.
Proof.
  apply (set_socket_old_socket_untouched (two_sockets OPEN OPEN) 0
           (mkHandler (Some 0%nat) (mkOptions "controller" 10) (mkClient 1 []) [])
           0 None).
  - reflexivity.
  - reflexivity.
  - eexists; reflexivity.
  - discriminate.
  - discriminate.
Defined.

Lemma getRpcHandler_keeps_entries_witness :
  exists h' w', getRpcHandler "shellyplus2pm-ddeeff" known_device = Ok h' w' /\
                rpcHandlers w' !! "shellyplus1-aabbcc" = Some 0%nat.
Proof.
  apply (getRpcHandler_keeps_entries known_device "shellyplus1-aabbcc"
           "shellyplus2pm-ddeeff" 0).
  vm_compute. reflexivity.
Defined.

(** The first socket of a handler that has none: the handler's four
    registrations are added to the socket, and [connect] is emitted if the
    socket is open and nothing otherwise; [disconnect] cannot be emitted. *)
Theorem first_socket_of_a_handler
  (w : World) (h : nat) (hd : Handler) (s : nat) (sk : Socket) :
  handlers w !! h = Some hd ->
  _socket hd = None ->
  sockets w !! s = Some sk ->
  exists w',
    set_socket h (Some s) w = Ok tt w' /\
    emitted_by w' h = emitted hd ++ (if is_OPEN (readyState sk) then [Connect] else []) /\
    (_socket <$> handlers w' !! h) = Some (Some s) /\
    sockets w' = <[s := with_listeners (fun l => l ++ handler_regs h) sk]> (sockets w).
Proof.
  intros Hh Hnone Hs.
  destruct (set_socket_run w h hd (Some s) Hh) as (w' & Hrun & Hh' & Hframe & Hnew & _).
  - rewrite Hnone. discriminate.
  - intros s0 [= <-]. eauto.
  - intros s0 Hs0. rewrite Hnone in Hs0. discriminate.
  - exists w'. split; [exact Hrun|]. split; [|split].
    + rewrite (emitted_by_insert w w' h hd _ Hh Hh').
      rewrite Hnone. cbn [state_of]. rewrite Hs. cbn.
      destruct (readyState sk); cbn; now rewrite ?app_nil_r.
    + rewrite Hh', list_lookup_insert_eq by (eapply lookup_lt_Some, Hh).
      destruct (swap_event _ _); reflexivity.
    + apply list_eq. intros i. destruct (decide (i = s)) as [->|Hi].
      * rewrite (Hnew s sk eq_refl Hs).
        symmetry. apply list_lookup_insert_eq. eapply lookup_lt_Some, Hs.
      * rewrite Hframe by congruence. now rewrite list_lookup_insert_ne.
Qed.

Lemma first_socket_of_a_handler_witness :
  exists w',
    set_socket 0 (Some 0%nat) awaited_device = Ok tt w' /\
    emitted_by w' 0 = [] ++ (if is_OPEN OPEN then [Connect] else []) /\
    (_socket <$> handlers w' !! 0%nat) = Some (Some 0%nat) /\
    sockets w'
    = <[0%nat := with_listeners (fun l => l ++ handler_regs 0) (mkSocket OPEN [] [] [])]>
        (sockets awaited_device).
Proof.
  apply (first_socket_of_a_handler awaited_device 0
           (mkHandler None (mkOptions "controller" 10) (mkClient 1 []) [])
           0 (mkSocket OPEN [] [] [])); reflexivity.
Defined.

(** ** Close reports of the handler's socket *)

Lemma remove_first_app_miss (p : Registration -> bool) (a b : list Registration) :
  existsb p a = false -> remove_first p (a ++ b) = a ++ remove_first p b.
Proof.
  induction a as [|r a IH]; cbn; [reflexivity|].
  destruct (p r); [discriminate|]. cbn. intros Ha. now rewrite IH.
Qed.

Lemma remove_last_app_miss (p : Registration -> bool) (l t : list Registration) :
  existsb p (rev t) = false -> remove_last p (l ++ t) = remove_last p l ++ t.
Proof.
  intros Ht. unfold remove_last.
  rewrite rev_app_distr, remove_first_app_miss by exact Ht.
  now rewrite rev_app_distr, rev_involutive.
Qed.

Lemma awaits_miss (ev : SockEvent) (h : nat) (fn : Listener) (ps : list nat) :
  (forall p, fn <> resolveAwait p) ->
  existsb (reg_matches ev fn) (rev (awaits ps)) = false.
Proof.
  intros Hfn. apply not_true_is_false. intros Hex.
  apply existsb_exists in Hex as (r & Hin & Hr).
  apply in_rev, list_elem_of_In, list_elem_of_fmap in Hin as (p & -> & _).
  rewrite reg_matches_fn in Hr; [discriminate|]. intros Heq. now apply (Hfn p).
Qed.

(** [handleClose] takes the handler's registrations and leaves the waiting
    ones. *)
Lemma unbind_keeps_awaits (h : nat) (ps : list nat) :
  unbind h (handler_regs h ++ awaits ps) = awaits ps.
Proof.
  pose proof (unbind_bound h []) as Hb. cbn [app] in Hb. unfold unbind in *.
  rewrite (remove_last_app_miss _ (handler_regs h)) by (apply (awaits_miss _ h); discriminate).
  rewrite (remove_last_app_miss _ (remove_last _ (handler_regs h)))
    by (apply (awaits_miss _ h); discriminate).
  rewrite (remove_last_app_miss _ (remove_last _ (remove_last _ (handler_regs h))))
    by (apply (awaits_miss _ h); discriminate).
  rewrite (remove_last_app_miss _
             (remove_last _ (remove_last _ (remove_last _ (handler_regs h)))))
    by (apply (awaits_miss _ h); discriminate).
  now rewrite Hb.
Qed.

Lemma registered_close_awaits (ps : list nat) :
  filter (fun r => reg_event r = EvClose) (awaits ps) = awaits ps.
Proof.
  induction ps as [|p ps IH]; [reflexivity|].
  unfold awaits in *. cbn [fmap list_fmap]. rewrite filter_cons_True by reflexivity.
  now rewrite IH.
Qed.

(** The waiting registrations, called in turn on a socket that carries them
    and nothing else: each takes itself off and resolves its promise. *)
Lemma run_awaits (call_emit : nat -> SockEvent -> EventArg -> M unit) (arg : EventArg)
  (s : nat) (ps : list nat) (w : World) (sk : Socket) :
  sockets w !! s = Some sk ->
  listeners sk = awaits ps ->
  (forall p, p ∈ ps -> is_Some (futures w !! p)) ->
  exists w',
    run_listeners (call_listener call_emit) s (awaits ps) arg w = Ok tt w' /\
    sockets w' = <[s := with_listeners (fun _ => []) sk]> (sockets w) /\
    handlers w' = handlers w /\
    rpcHandlers w' = rpcHandlers w /\ serverEmitted w' = serverEmitted w /\
    length (futures w') = length (futures w) /\
    (forall p, p ∈ ps -> futures w !! p = Some FPending ->
       futures w' !! p = Some (FResolved None)) /\
    (forall q st, futures w !! q = Some st -> st <> FPending \/ q ∉ ps ->
       futures w' !! q = Some st).
Proof.
  revert w sk. induction ps as [|p ps IH]; intros w sk Hs Hls Hvalid.
  - exists w. cbn. split; [reflexivity|]. split.
    + destruct sk as [rs ls snt cc]. cbn in Hls. subst ls.
      symmetry. now apply list_insert_id.
    + repeat split; try done. intros q Hin. inversion Hin.
  - change (awaits (p :: ps)) with (mkReg EvClose (resolveAwait p) true :: awaits ps) in *.
    cbn [run_listeners unregister_once reg_once reg_fn reg_event call_listener].
    unfold bind at 1. rewrite (modify_socket_ok w s sk _ Hs).
    set (sk1 := with_listeners _ sk). set (w1 := set_sockets _ w).
    assert (Hls1 : listeners sk1 = awaits ps).
    { subst sk1. unfold with_listeners. cbn [listeners]. rewrite Hls.
      cbn [remove_first]. now rewrite reg_matches_same. }
    assert (Hs1 : sockets w1 !! s = Some sk1) by (eapply sockets_insert_lookup, Hs).
    destruct (settle_ok w1 p (FResolved None))
      as (w2 & Hrun2 & Hs2 & Hh2 & Hlen2 & Hset & Hkeep).
    { apply Hvalid. left. }
    unfold bind at 1.
    replace (match arg with
             | ArgNone | _ => settle p (FResolved None)
             end) with (settle p (FResolved None)) by (now destruct arg).
    rewrite Hrun2.
    destruct (IH w2 sk1) as (w' & Hrun & Hs' & Hh' & Hr' & He' & Hlen' & Hres & Hsame).
    { rewrite Hs2. exact Hs1. }
    { exact Hls1. }
    { intros q Hq. apply lookup_lt_is_Some. rewrite Hlen2.
      apply lookup_lt_is_Some, Hvalid. now right. }
    assert (Hr2 : rpcHandlers w2 = rpcHandlers w /\ serverEmitted w2 = serverEmitted w).
    { unfold settle in Hrun2.
      destruct (futures w1 !! p) as [[| |]|]; try discriminate;
        injection Hrun2 as <-; split; reflexivity. }
    exists w'. split; [exact Hrun|].
    split.
    { rewrite Hs', Hs2. subst w1 sk1. cbn. rewrite list_insert_insert_eq.
      reflexivity. }
    split; [rewrite Hh', Hh2; reflexivity|].
    split; [rewrite Hr'; apply Hr2|]. split; [rewrite He'; apply Hr2|].
    split; [rewrite Hlen', Hlen2; reflexivity|].
    assert (Hstep : forall q st, futures w !! q = Some st ->
              st <> FPending \/ q <> p -> futures w2 !! q = Some st).
    { intros q st Hq Hor.
      assert (futures w1 !! p = Some FPending \/ futures w1 !! p <> Some FPending)
        as [Hpend|Hnot]
        by (destruct (futures w1 !! p) as [[]|]; first [now left | now right]).
      - rewrite (Hset Hpend). rewrite list_lookup_insert_ne; [exact Hq|].
        intros <-. destruct Hor as [Hst|Hne]; [|done].
        change (futures w1) with (futures w) in Hpend. congruence.
      - now rewrite (Hkeep Hnot). }
    split.
    + intros q Hin Hpend. destruct (decide (q = p)) as [->|Hne].
      * apply (Hsame _ (FResolved None)); [|left; discriminate].
        rewrite (Hset Hpend). apply list_lookup_insert_eq.
        now apply lookup_lt_Some in Hpend.
      * apply elem_of_cons in Hin as [->|Hin]; [done|].
        apply Hres; [exact Hin|]. apply Hstep; [exact Hpend|now right].
    + intros q st Hq Hor. apply Hsame.
      * apply Hstep; [exact Hq|].
        destruct Hor as [Hst|Hnone]; [now left|right].
        intros ->. apply Hnone. left.
      * destruct Hor as [Hst|Hnone]; [now left|right].
        intros Hin. apply Hnone. now right.
Qed.

(** C6, as the code has it: the socket a handler is attached to reports its
    close while it carries the handler's four registrations (and, after
    [destroy], the registrations that wait for the close).  Whatever the
    [readyState] of the socket was and whatever the handler had emitted, so
    also when it was never connected, the handler takes its four
    registrations off the socket and emits [disconnect] with the code and the
    reason, once; the waiting promises are resolved, and nothing is left
    registered on the socket. *)
Theorem close_report_unbinds_and_emits_disconnect
  (w : World) (h : nat) (hd : Handler) (s : nat) (sk : Socket) (ps : list nat)
  (code : Z) (reason : string) :
  handlers w !! h = Some hd ->
  _socket hd = Some s ->
  sockets w !! s = Some sk ->
  listeners sk = handler_regs h ++ awaits ps ->
  (forall p, p ∈ ps -> is_Some (futures w !! p)) ->
  exists w',
    ws_closed s code reason w = Ok tt w' /\
    emitted_by w' h = emitted hd ++ [Disconnect code reason] /\
    sockets w' = <[s := mkSocket CLOSED [] (sent sk) (closeCalls sk)]> (sockets w) /\
    (forall p, p ∈ ps -> futures w !! p = Some FPending ->
       futures w' !! p = Some (FResolved None)) /\
    rpcHandlers w' = rpcHandlers w /\ serverEmitted w' = serverEmitted w.
Proof.
  intros Hh Hsock Hs Hls Hvalid.
  destruct sk as [rs ls snt cc]. cbn [listeners] in Hls. subst ls.
  cbn [sent closeCalls].
  unfold ws_closed, bind at 1. rewrite (modify_socket_ok w s _ _ Hs).
  unfold with_readyState. cbn [readyState listeners sent closeCalls].
  set (sk0 := mkSocket CLOSED (handler_regs h ++ awaits ps) snt cc).
  set (w0 := set_sockets _ w).
  assert (Hs0 : sockets w0 !! s = Some sk0) by (eapply sockets_insert_lookup, Hs).
  unfold socket_emit, bind at 1, get_socket at 1. rewrite Hs0.
  rewrite emit_at_S. unfold bind at 1, get_socket at 1. rewrite Hs0.
  assert (Hreg : registered EvClose sk0
                 = mkReg EvClose (closeHandler h) false :: awaits ps).
  { unfold registered, sk0. cbn [listeners].
    rewrite filter_app, registered_close_awaits. reflexivity. }
  rewrite Hreg. cbn [unhandled run_listeners unregister_once reg_once reg_fn].
  unfold bind at 1, ret at 1. unfold bind at 1. cbn [call_listener].
  rewrite (handleClose_run w0 h hd s sk0 code reason Hh Hsock Hs0).
  set (hd1 := with_emitted _ hd).
  set (sk1 := with_listeners (unbind h) sk0).
  set (w1 := set_handlers _ _).
  assert (Hs1 : sockets w1 !! s = Some sk1).
  { subst w1. cbn. apply list_lookup_insert_eq.
    rewrite length_insert. eapply lookup_lt_Some, Hs. }
  assert (Hls1 : listeners sk1 = awaits ps).
  { subst sk1 sk0. unfold with_listeners. cbn [listeners]. apply unbind_keeps_awaits. }
  destruct (run_awaits (emit_at (length (listeners sk0))) (ArgClose code reason)
              s ps w1 sk1 Hs1 Hls1 Hvalid)
    as (w' & Hrun & Hs' & Hh' & Hr' & He' & _ & Hres & _).
  rewrite Hrun. exists w'. split; [reflexivity|].
  split.
  { unfold emitted_by. rewrite Hh'. subst w1. cbn.
    now rewrite list_lookup_insert_eq by (eapply lookup_lt_Some, Hh). }
  split.
  { rewrite Hs'. subst w1 w0 sk1 sk0. cbn. now rewrite !list_insert_insert_eq. }
  split; [exact Hres|]. split; [rewrite Hr'|rewrite He']; reflexivity.
Qed.

Lemma close_report_unbinds_and_emits_disconnect_witness :
  exists w',
    ws_closed 0 1000 "User request" closing_down = Ok tt w' /\
    emitted_by w' 0 = [] ++ [Disconnect 1000 "User request"] /\
    sockets w' = <[0%nat := mkSocket CLOSED [] [] [(1000, "User request")]]>
                   (sockets closing_down) /\
    (forall p, p ∈ [0%nat] -> futures closing_down !! p = Some FPending ->
       futures w' !! p = Some (FResolved None)) /\
    rpcHandlers w' = rpcHandlers closing_down /\
    serverEmitted w' = serverEmitted closing_down.
Proof.
  apply (close_report_unbinds_and_emits_disconnect closing_down 0
           (mkHandler (Some 0%nat) (mkOptions "controller" 10) (mkClient 1 []) [])
           0 (mkSocket CLOSING (handler_regs 0 ++ awaits [0%nat]) []
                       [(1000, "User request")])
           [0%nat] 1000 "User request").
  - reflexivity.
  - reflexivity.
  - reflexivity.
  - reflexivity.
  - intros p Hin. apply list_elem_of_singleton in Hin as ->. eexists; reflexivity.
Defined.
